(** * Chainway R6 UHF RFID reader web client: protocol service and tag list

    A shallow embedding of
    - [webapp/src/services/chainway-r6.service.ts] (class [ChainwayR6Service]),
    - [webapp/src/types/rfid.types.ts],
    - the tag-read handler of [webapp/src/components/RFIDReader.tsx], and
      the state and event handlers of that component,
    followed by the properties established about them.

    Conventions of the embedding.
    - A [Uint8Array] is a [list byte]; the numeric value of an element is
      [byteVal].  Reading past the end gives [None] (JavaScript [undefined]).
    - The service object is the record [ChainwayR6Service]; every method is a
      computation in the state monad [M] over a [World], which pairs the
      service fields with the chronological [trace] of what the service did
      to its environment: transport writes, teardown requests and callback
      invocations.
    - What the Bluetooth stack answers is not decided by the service, so it
      is an argument of the method ([writeResolves], [ConnectTransport],
      [gattConnected]); the clock read by [Date.now()] is the argument [now].
    - Each [async] method is run to completion before the next one starts. *)

From Stdlib Require Import ZArith NArith List String Ascii Strings.Byte Lia.
From Stdlib Require Import HexadecimalString DecimalString.
From stdpp Require Import base option list strings gmap.
Import ListNotations.
Local Open Scope Z_scope.

(* ===================================================================== *)
(** ** JavaScript primitives used by the service                          *)
(* ===================================================================== *)

Module Js.

Abbreviation Uint8Array := (list byte).

(** Numeric value of a typed-array element, in [0, 255]. *)
Definition byteVal (b : byte) : Z := Z.of_N (Byte.to_N b).

(** Storing an integral number into a [Uint8Array] keeps it modulo 256. *)
Definition toUint8 (n : Z) : byte :=
  default x00 (Byte.of_N (Z.to_N (n mod 256))).

(** [data[i]]: [None] stands for [undefined]. *)
Definition index (data : Uint8Array) (i : nat) : option Z :=
  byteVal <$> data !! i.

(** [data.slice(start, end)] for [0 <= start <= end]; both ends are
    clamped to the length of [data], nothing is raised. *)
Definition slice (data : Uint8Array) (start end_ : nat) : Uint8Array :=
  take (end_ - start) (drop start data).

(** Operand conversion of the bit operators: [undefined] becomes [0];
    a byte value is unchanged. *)
Definition toInt32 (v : option Z) : Z := default 0 v.

(** [n.toString(16)] and [n.toString()] for a non-negative integer:
    lower-case digits, no leading zero, ["0"] for zero. *)
Definition toString16 (n : Z) : string :=
  HexadecimalString.NilZero.string_of_uint (N.to_hex_uint (Z.to_N n)).

Definition toString10 (n : Z) : string :=
  DecimalString.NilZero.string_of_uint (N.to_uint (Z.to_N n)).

Fixpoint repeatChar (c : ascii) (n : nat) : string :=
  match n with
  | O => EmptyString
  | S k => String c (repeatChar c k)
  end.

(** [s.padStart(targetLength, c)] for a one-character pad string. *)
Definition padStart (targetLength : nat) (c : ascii) (s : string) : string :=
  repeatChar c (targetLength - String.length s) +:+ s.

Definition upperChar (c : ascii) : ascii :=
  let n := nat_of_ascii c in
  if ((97 <=? n) && (n <=? 122))%nat then ascii_of_nat (n - 32) else c.

(** [s.toUpperCase()] on ASCII text. *)
Fixpoint toUpperCase (s : string) : string :=
  match s with
  | EmptyString => EmptyString
  | String c r => String (upperChar c) (toUpperCase r)
  end.

(** [parts.join('')]. *)
Definition join (parts : list string) : string :=
  String.concat EmptyString parts.

End Js.
Import Js.

(* ===================================================================== *)
(** ** rfid.types.ts                                                      *)
(* ===================================================================== *)

Record UHFTagInfo := mkUHFTagInfo {
  epc : string;
  rssi : string;
  count : Z;
  tid : option string;
  user : option string;
  pc : option string;
  ant : option string;
  timestamp : Z
}.

Inductive ConnectionStatus :=
| disconnected
| connecting
| connected
| error.

(* ===================================================================== *)
(** ** chainway-r6.service.ts                                             *)
(* ===================================================================== *)

(** Handles given out by the Bluetooth stack.  [hasGatt] tells whether
    [device.gatt] is defined. *)
Record BluetoothDevice := { deviceId : nat; hasGatt : bool }.
Record BluetoothRemoteGATTServer := { serverId : nat }.
Record BluetoothRemoteGATTCharacteristic := { characteristicId : nat }.

(** A registered callback is known by its identity only; calling it is
    recorded in the trace. *)
Definition Callback := nat.

Record ChainwayR6Service := mkService {
  device : option BluetoothDevice;
  server : option BluetoothRemoteGATTServer;
  characteristic : option BluetoothRemoteGATTCharacteristic;
  tagReadCallback : option Callback;
  connectionStatusCallback : option Callback;
  isInventoryRunning : bool
}.

(** What the service does to its environment. *)
Inductive Effect :=
| WriteValue (command : Uint8Array)      (* characteristic.writeValue(command) *)
| GattDisconnect                          (* device.gatt.disconnect() *)
| TagRead (cb : Callback) (tag : UHFTagInfo)
| StatusChange (cb : Callback) (status : ConnectionStatus).

Record World := mkWorld {
  svc : ChainwayR6Service;
  trace : list Effect
}.

(** The service as constructed: [new ChainwayR6Service()]. *)
Definition newService : ChainwayR6Service :=
  {| device := None; server := None; characteristic := None;
     tagReadCallback := None; connectionStatusCallback := None;
     isInventoryRunning := false |}.

Definition initialWorld : World := {| svc := newService; trace := [] |}.

(** *** State monad over [World] *)

Definition M (A : Type) : Type := World -> A * World.

#[global] Instance M_ret : MRet M := fun A (a : A) w => (a, w).

#[global] Instance M_bind : MBind M :=
  fun A B (k : A -> M B) (m : M A) w => let '(a, w') := m w in k a w'.

Definition ret {A} (a : A) : M A := mret a.

Definition this : M ChainwayR6Service := fun w => (svc w, w).

Definition assign (f : ChainwayR6Service -> ChainwayR6Service) : M unit :=
  fun w => (tt, {| svc := f (svc w); trace := trace w |}).

Definition perform (e : Effect) : M unit :=
  fun w => (tt, {| svc := svc w; trace := trace w ++ [e] |}).

Definition exec {A} (m : M A) (w : World) : World := snd (m w).
Definition result {A} (m : M A) (w : World) : A := fst (m w).

(** Field assignments [this.f = v]. *)
Definition set_device v (s : ChainwayR6Service) :=
  mkService v (server s) (characteristic s) (tagReadCallback s)
            (connectionStatusCallback s) (isInventoryRunning s).
Definition set_server v (s : ChainwayR6Service) :=
  mkService (device s) v (characteristic s) (tagReadCallback s)
            (connectionStatusCallback s) (isInventoryRunning s).
Definition set_characteristic v (s : ChainwayR6Service) :=
  mkService (device s) (server s) v (tagReadCallback s)
            (connectionStatusCallback s) (isInventoryRunning s).
Definition set_tagReadCallback v (s : ChainwayR6Service) :=
  mkService (device s) (server s) (characteristic s) v
            (connectionStatusCallback s) (isInventoryRunning s).
Definition set_connectionStatusCallback v (s : ChainwayR6Service) :=
  mkService (device s) (server s) (characteristic s) (tagReadCallback s)
            v (isInventoryRunning s).
Definition set_isInventoryRunning v (s : ChainwayR6Service) :=
  mkService (device s) (server s) (characteristic s) (tagReadCallback s)
            (connectionStatusCallback s) v.

(** *** Private helpers of the class *)

(** [calculateChecksum]: the loop adds every element, the result is masked
    with [0xFF]. *)
Definition calculateChecksum (data : Uint8Array) : Z :=
  Z.land (fold_left (fun sum b => sum + byteVal b) data 0) 0xFF.

(** [updateConnectionStatus]: calls the status callback when one is set. *)
Definition updateConnectionStatus (status : ConnectionStatus) : M unit :=
  s ← this;
  match connectionStatusCallback s with
  | Some cb => perform (StatusChange cb status)
  | None => ret tt
  end.

(** [cleanup]. *)
Definition cleanup : M unit :=
  assign (set_device None);;
  assign (set_server None);;
  assign (set_characteristic None);;
  assign (set_isInventoryRunning false).

(** [handleDisconnect]: listener of the device's [gattserverdisconnected]. *)
Definition handleDisconnect : M unit :=
  cleanup;;
  updateConnectionStatus disconnected.

(** Rendering of one byte in [parseTagData]: two lower-case hexadecimal
    digits for the PC word, and the same turned to upper case for the EPC. *)
Definition pcHex (b : byte) : string :=
  padStart 2 "0" (toString16 (byteVal b)).

Definition epcHex (b : byte) : string :=
  toUpperCase (padStart 2 "0" (toString16 (byteVal b))).

(** [parseTagData].  No read of the body raises: [slice] clamps and an
    [undefined] operand of [>>] counts as zero.  The only expression that
    can throw is [rssi.toString()] on an [undefined] RSSI (a buffer of at
    most five bytes); the [catch] turns that into [null]. *)
Definition parseTagData (now : Z) (data : Uint8Array) : option UHFTagInfo :=
  let offset := 5%nat in
  let rssi := index data offset in
  let offset := S offset in
  let pc := join (map pcHex (slice data offset (offset + 2))) in
  let offset := (offset + 2)%nat in
  let epcLen := Z.land (Z.shiftr (toInt32 (index data (offset - 2))) 3) 0x1F * 2 in
  let epc := join (map epcHex (slice data offset (offset + Z.to_nat epcLen))) in
  match rssi with
  | Some r =>
      Some {| epc := epc; rssi := toString10 r; count := 1;
              tid := None; user := None; pc := Some pc; ant := None;
              timestamp := now |}
  | None => None
  end.

(** The test that opens [handleNotification]:
    [data.length > 5 && data[0] === 0xA0], then [const command = data[3]].
    It yields the command byte of a buffer the handler goes on with. *)
Definition frameCommand (data : Uint8Array) : option Z :=
  if (5 <? length data)%nat && bool_decide (index data 0 = Some 0xA0)
  then index data 3
  else None.

(** [handleNotification]: listener of [characteristicvaluechanged].
    [value] is the characteristic's value ([None] when it has none). *)
Definition handleNotification (now : Z) (value : option Uint8Array) : M unit :=
  match value with
  | None => ret tt
  | Some data =>
      match frameCommand data with
      | Some command =>
          if (command =? 0x22) || (command =? 0x27) then
            s ← this;
            match parseTagData now data, tagReadCallback s with
            | Some tag, Some cb => perform (TagRead cb tag)
            | _, _ => ret tt
            end
          else ret tt
      | None => ret tt
      end
  end.

(** *** Public methods *)

(** How far the Bluetooth stack lets [connect] get. *)
Inductive ConnectTransport :=
| RequestDeviceRejects
| GattConnectRejects (d : BluetoothDevice)
| GetPrimaryServiceRejects (d : BluetoothDevice) (g : BluetoothRemoteGATTServer)
| GetCharacteristicRejects (d : BluetoothDevice) (g : BluetoothRemoteGATTServer)
| StartNotificationsRejects (d : BluetoothDevice) (g : BluetoothRemoteGATTServer)
    (c : BluetoothRemoteGATTCharacteristic)
| ConnectResolves (d : BluetoothDevice) (g : BluetoothRemoteGATTServer)
    (c : BluetoothRemoteGATTCharacteristic).

(** The [catch] block of [connect]: report [error] and rethrow. *)
Definition connectFails : M bool :=
  updateConnectionStatus error;;
  ret false.

(** After [requestDevice] has resolved with [d]: the [gatt] test, then
    [gatt.connect()] unless the stack rejects it. *)
Definition withDevice (d : BluetoothDevice) (next : M bool) : M bool :=
  assign (set_device (Some d));;
  if hasGatt d then next else connectFails.

(** [connect]: [true] when the promise resolves, [false] when it rejects. *)
Definition connect (t : ConnectTransport) : M bool :=
  updateConnectionStatus connecting;;
  match t with
  | RequestDeviceRejects => connectFails
  | GattConnectRejects d => withDevice d connectFails
  | GetPrimaryServiceRejects d g =>
      withDevice d (assign (set_server (Some g));; connectFails)
  | GetCharacteristicRejects d g =>
      withDevice d (assign (set_server (Some g));; connectFails)
  | StartNotificationsRejects d g c =>
      withDevice d (assign (set_server (Some g));;
                    assign (set_characteristic (Some c));;
                    connectFails)
  | ConnectResolves d g c =>
      withDevice d (assign (set_server (Some g));;
                    assign (set_characteristic (Some c));;
                    updateConnectionStatus connected;;
                    ret true)
  end.

(** [disconnect]; [gattConnected] is what the stack reports for
    [gatt.connected] when the device has a [gatt]. *)
Definition disconnect (gattConnected : bool) : M unit :=
  s ← this;
  (match device s with
   | Some d =>
       if hasGatt d && gattConnected then perform GattDisconnect else ret tt
   | None => ret tt
   end);;
  cleanup;;
  updateConnectionStatus disconnected.

(** [await this.characteristic.writeValue(command)]: the call is made, and
    the promise resolves ([true]) or rejects ([false]). *)
Definition writeValue (writeResolves : bool) (command : Uint8Array) : M bool :=
  perform (WriteValue command);;
  ret writeResolves.

Definition startInventoryCommand : Uint8Array := [xa0; x04; x01; x27; xcc].
Definition stopInventoryCommand : Uint8Array := [xa0; x04; x01; x28; xcd].
Definition getPowerCommand : Uint8Array := [xa0; x04; x01; xb7; x5c].

Definition startInventory (writeResolves : bool) : M bool :=
  s ← this;
  match characteristic s with
  | None => ret false
  | Some _ =>
      written ← writeValue writeResolves startInventoryCommand;
      if written : bool
      then (assign (set_isInventoryRunning true);; ret true) : M bool
      else ret false
  end.

Definition stopInventory (writeResolves : bool) : M bool :=
  s ← this;
  match characteristic s with
  | None => ret false
  | Some _ =>
      written ← writeValue writeResolves stopInventoryCommand;
      if written : bool
      then (assign (set_isInventoryRunning false);; ret true) : M bool
      else ret false
  end.

(** [getPower] answers [null] on every path. *)
Definition getPower (writeResolves : bool) : M (option Z) :=
  s ← this;
  match characteristic s with
  | None => ret None
  | Some _ =>
      writeValue writeResolves getPowerCommand;;
      ret None
  end.

(** The frame built by [setPower]: the literal with a zero in the last
    place, then [command[5] = this.calculateChecksum(command.slice(0, 5))]. *)
Definition setPowerCommand (power : Z) : Uint8Array :=
  let command := [xa0; x05; x01; xb6; toUint8 power; x00] in
  <[5%nat := toUint8 (calculateChecksum (slice command 0 5))]> command.

(** [setPower] for an integral [power]. *)
Definition setPower (power : Z) (writeResolves : bool) : M bool :=
  s ← this;
  match characteristic s with
  | None => ret false
  | Some _ =>
      if (power <? 0) || (30 <? power) then ret false
      else writeValue writeResolves (setPowerCommand power)
  end.

Definition onTagRead (callback : Callback) : M unit :=
  assign (set_tagReadCallback (Some callback)).

Definition onConnectionStatusChange (callback : Callback) : M unit :=
  assign (set_connectionStatusCallback (Some callback)).

(** *** Runs of the service *)

(** One thing that happens to the service: a call of a public method, or
    an event of the Bluetooth stack handed to one of the two listeners. *)
Inductive Action :=
| Connect (t : ConnectTransport)
| Disconnect (gattConnected : bool)
| StartInventory (writeResolves : bool)
| StopInventory (writeResolves : bool)
| GetPower (writeResolves : bool)
| SetPower (power : Z) (writeResolves : bool)
| OnTagRead (callback : Callback)
| OnConnectionStatusChange (callback : Callback)
| Notification (now : Z) (value : option Uint8Array)
| GattServerDisconnected.

Definition step (a : Action) : World -> World :=
  match a with
  | Connect t => exec (connect t)
  | Disconnect g => exec (disconnect g)
  | StartInventory r => exec (startInventory r)
  | StopInventory r => exec (stopInventory r)
  | GetPower r => exec (getPower r)
  | SetPower p r => exec (setPower p r)
  | OnTagRead cb => exec (onTagRead cb)
  | OnConnectionStatusChange cb => exec (onConnectionStatusChange cb)
  | Notification now v => exec (handleNotification now v)
  | GattServerDisconnected => exec handleDisconnect
  end.

Definition run (actions : list Action) (w : World) : World :=
  fold_left (fun w a => step a w) actions w.

Inductive reachable : World -> Prop :=
| reachable_initial : reachable initialWorld
| reachable_step a w : reachable w -> reachable (step a w).

(** The transport writes among the effects of a trace. *)
Definition writes (tr : list Effect) : list Uint8Array :=
  omap (fun e => match e with WriteValue c => Some c | _ => None end) tr.

(** The tags handed to the tag-read callback. *)
Definition tagsRead (tr : list Effect) : list UHFTagInfo :=
  omap (fun e => match e with TagRead _ t => Some t | _ => None end) tr.

(** The statuses handed to the status callback. *)
Definition statusesSent (tr : list Effect) : list ConnectionStatus :=
  omap (fun e => match e with StatusChange _ s => Some s | _ => None end) tr.

(* ===================================================================== *)
(** ** RFIDReader.tsx: the tag list                                       *)
(* ===================================================================== *)

Module RFIDReader.

(** [interface TagWithId extends UHFTagInfo { id: string }]. *)
Record TagWithId := mkTagWithId {
  info : UHFTagInfo;
  id : string
}.

(** [{ ...tag, count: n }]. *)
Definition withCount (tag : UHFTagInfo) (n : Z) : UHFTagInfo :=
  {| epc := epc tag; rssi := rssi tag; count := n; tid := tid tag;
     user := user tag; pc := pc tag; ant := ant tag;
     timestamp := timestamp tag |}.

(** The updater passed to [setTags] by the [onTagRead] callback: the
    [tags] state is a [Map] keyed by EPC. *)
Definition tagReadUpdater (tag : UHFTagInfo)
    (prevTags : gmap string TagWithId) : gmap string TagWithId :=
  let newTags := prevTags in
  match newTags !! epc tag with
  | Some existingTag =>
      <[epc tag := {| info := withCount tag (count (info existingTag) + 1);
                      id := epc tag |}]> newTags
  | None =>
      <[epc tag := {| info := tag; id := epc tag |}]> newTags
  end.

(** The [tags] state after the callback has run once per delivered tag,
    in order. *)
Definition deliver (tags : list UHFTagInfo)
    (prevTags : gmap string TagWithId) : gmap string TagWithId :=
  fold_left (fun m t => tagReadUpdater t m) tags prevTags.

End RFIDReader.

(* ===================================================================== *)
(** ** Vocabulary of the specification                                    *)
(* ===================================================================== *)

(** Sum of the element values of a buffer. *)
Definition byteSum (data : Uint8Array) : Z :=
  foldr (fun b acc => byteVal b + acc) 0 data.

(** A buffer whose last byte is not the modulo-256 sum of the bytes before
    it. *)
Definition checksumMismatch (data : Uint8Array) : Prop :=
  match reverse data with
  | [] => True
  | c :: body => byteVal c <> byteSum (reverse body) mod 256
  end.

(** The EPC byte length announced by the first PC byte. *)
Definition epcLength (pcByte0 : byte) : nat :=
  Z.to_nat (Z.land (Z.shiftr (byteVal pcByte0) 3) 0x1F * 2).


(** A connected service with both callbacks registered, used to exercise
    the statements below. *)
Definition sampleConnected : World :=
  run [OnConnectionStatusChange 1%nat; OnTagRead 2%nat;
       Connect (ConnectResolves {| deviceId := 6; hasGatt := true |}
                                {| serverId := 6 |}
                                {| characteristicId := 6 |})]
      initialWorld.

(* ===================================================================== *)
(** ** RFIDReader.tsx: state and handlers of the component                *)
(* ===================================================================== *)

Module Component.

Import RFIDReader.

(** The five [useState] cells; [errorText] is the cell named [error].
    Every handler is taken as run to completion, and as callable in any
    state: which buttons are shown or disabled is not assumed. *)
Record State := mkState {
  connectionStatus : ConnectionStatus;
  isScanning : bool;
  tags : gmap string TagWithId;
  power : Z;
  errorText : string
}.

Definition initialState : State :=
  {| connectionStatus := disconnected; isScanning := false; tags := ∅;
     power := 20; errorText := EmptyString |}.

(** The state setters.  [setPowerLevel] is the setter of the [power] cell
    (named [setPower] in the component, where it shadows nothing). *)
Definition setConnectionStatus v (s : State) :=
  mkState v (isScanning s) (tags s) (power s) (errorText s).
Definition setIsScanning v (s : State) :=
  mkState (connectionStatus s) v (tags s) (power s) (errorText s).
Definition setTags v (s : State) :=
  mkState (connectionStatus s) (isScanning s) v (power s) (errorText s).
Definition setPowerLevel v (s : State) :=
  mkState (connectionStatus s) (isScanning s) (tags s) v (errorText s).
Definition setError v (s : State) :=
  mkState (connectionStatus s) (isScanning s) (tags s) (power s) v.

(** The component together with the service singleton it drives. *)
Record App := mkApp {
  ui : State;
  world : World
}.

(** The callback passed to [onConnectionStatusChange]. *)
Definition statusChanged (status : ConnectionStatus) (s : State) : State :=
  let s := setConnectionStatus status s in
  match status with
  | disconnected | error => setIsScanning false s
  | connecting | connected => s
  end.

(** The callback passed to [onTagRead]. *)
Definition tagRead (tag : UHFTagInfo) (s : State) : State :=
  setTags (tagReadUpdater tag (tags s)) s.

(** Identities under which the two callbacks are registered. *)
Definition statusCallbackId : Callback := 1%nat.
Definition tagCallbackId : Callback := 2%nat.

(** What an effect of the service does to the component: a call of one of
    its two callbacks runs that callback. *)
Definition react (e : Effect) (s : State) : State :=
  match e with
  | StatusChange cb status =>
      if (cb =? statusCallbackId)%nat then statusChanged status s else s
  | TagRead cb tag =>
      if (cb =? tagCallbackId)%nat then tagRead tag s else s
  | WriteValue _ | GattDisconnect => s
  end.

(** A call into the service: the method runs, and the callbacks it invoked
    (the effects it appended to the trace) run on the component state, in
    order. *)
Definition call {A} (m : M A) (a : App) : A * App :=
  let '(r, w') := m (world a) in
  (r, {| ui := fold_left (fun s e => react e s)
                 (drop (length (trace (world a))) (trace w')) (ui a);
         world := w' |}).

Definition onUi (f : State -> State) (a : App) : App :=
  {| ui := f (ui a); world := world a |}.

(** The [useEffect] that runs once: both callbacks are registered. *)
Definition mount (a : App) : App :=
  snd (call (onConnectionStatusChange statusCallbackId;;
             onTagRead tagCallbackId) a).

Definition initialApp : App :=
  mount {| ui := initialState; world := initialWorld |}.

(** Listeners installed by [connect], as seen from the component. *)
Definition notification (now : Z) (value : option Uint8Array) (a : App) : App :=
  snd (call (handleNotification now value) a).

Definition gattServerDisconnected (a : App) : App :=
  snd (call handleDisconnect a).

(** The message of what [connect] throws, when it is an [Error]: the
    service's own ['GATT not supported'] for a device without [gatt],
    otherwise the stack's rejection ([stackMessage], [None] when the
    rejection is no [Error]). *)
Definition thrownMessage (t : ConnectTransport) (stackMessage : option string)
    : option string :=
  match t with
  | RequestDeviceRejects => stackMessage
  | GattConnectRejects d
  | GetPrimaryServiceRejects d _
  | GetCharacteristicRejects d _
  | StartNotificationsRejects d _ _
  | ConnectResolves d _ _ =>
      if hasGatt d then stackMessage else Some "GATT not supported"
  end.

(** [handleConnect]. *)
Definition handleConnect (t : ConnectTransport) (stackMessage : option string)
    (writeResolves : bool) (a : App) : App :=
  let power := power (ui a) in
  let a := onUi (setError EmptyString) a in
  let '(resolved, a) := call (connect t) a in
  if resolved : bool
  then snd (call (setPower power writeResolves) a)
  else onUi (setError (default "Failed to connect"
                               (thrownMessage t stackMessage))) a.

(** [handleDisconnect] of the component. *)
Definition handleDisconnect (gattConnected : bool) (a : App) : App :=
  let a := snd (call (disconnect gattConnected) a) in
  onUi (setTags ∅) a.

(** [handleStartScan]. *)
Definition handleStartScan (writeResolves : bool) (a : App) : App :=
  let a := onUi (setError EmptyString) a in
  let '(success, a) := call (startInventory writeResolves) a in
  if success : bool
  then onUi (setTags ∅) (onUi (setIsScanning true) a)
  else onUi (setError "Failed to start scanning") a.

(** [handleStopScan]. *)
Definition handleStopScan (writeResolves : bool) (a : App) : App :=
  let a := snd (call (stopInventory writeResolves) a) in
  onUi (setIsScanning false) a.

(** [handlePowerChange]. *)
Definition handlePowerChange (newPower : Z) (writeResolves : bool) (a : App) : App :=
  let status := connectionStatus (ui a) in
  let a := onUi (setPowerLevel newPower) a in
  match status with
  | connected => snd (call (setPower newPower writeResolves) a)
  | _ => a
  end.

(** [clearTags]. *)
Definition clearTags (a : App) : App := onUi (setTags ∅) a.

(** What can happen to the mounted component. *)
Inductive Input :=
| ClickConnect (t : ConnectTransport) (stackMessage : option string)
    (writeResolves : bool)
| ClickDisconnect (gattConnected : bool)
| ClickStartScan (writeResolves : bool)
| ClickStopScan (writeResolves : bool)
| ChangePower (newPower : Z) (writeResolves : bool)
| ClickClear
| StackNotification (now : Z) (value : option Uint8Array)
| StackDisconnected.

Definition handle (i : Input) : App -> App :=
  match i with
  | ClickConnect t m r => handleConnect t m r
  | ClickDisconnect g => handleDisconnect g
  | ClickStartScan r => handleStartScan r
  | ClickStopScan r => handleStopScan r
  | ChangePower p r => handlePowerChange p r
  | ClickClear => clearTags
  | StackNotification now v => notification now v
  | StackDisconnected => gattServerDisconnected
  end.

Inductive appReachable : App -> Prop :=
| appReachable_initial : appReachable initialApp
| appReachable_handle i a : appReachable a -> appReachable (handle i a).

End Component.

(* ===================================================================== *)
(** ** Further vocabulary                                                 *)
(* ===================================================================== *)

(** The bytes [parseTagData] renders as the EPC:
    [data.slice(8, 8 + epcLen)], where a missing PC byte gives length 0. *)
Definition epcBytes (data : Uint8Array) : Uint8Array :=
  slice data 8 (8 + default 0%nat (epcLength <$> data !! 6%nat)).

(** Reading upper-case hexadecimal text back into bytes, two characters
    per byte. *)
Definition hexDigitValue (c : ascii) : option N :=
  let n := N_of_ascii c in
  if ((48 <=? n) && (n <=? 57))%N then Some (n - 48)%N
  else if ((65 <=? n) && (n <=? 70))%N then Some (n - 55)%N
  else None.

Fixpoint decodeHex (text : string) : option Uint8Array :=
  match text with
  | EmptyString => Some []
  | String hi (String lo rest) =>
      match hexDigitValue hi, hexDigitValue lo, decodeHex rest with
      | Some h, Some l, Some bytes =>
          match Byte.of_N (16 * h + l) with
          | Some b => Some (b :: bytes)
          | None => None
          end
      | _, _, _ => None
      end
  | String _ EmptyString => None
  end.

(** The frames the service is written to send. *)
Definition isCommandFrame (frame : Uint8Array) : Prop :=
  frame = startInventoryCommand \/ frame = stopInventoryCommand \/
  frame = getPowerCommand \/
  exists p, 0 <= p <= 30 /\ frame = setPowerCommand p.


(** Every entry of the tag list sits under its own EPC and carries it as
    [id]. *)
Definition keyedByEpc (m : gmap string RFIDReader.TagWithId) : Prop :=
  forall k v, m !! k = Some v ->
    RFIDReader.id v = k /\ epc (RFIDReader.info v) = k.

(** The tags of a list that carry a given EPC. *)
Definition withEpc (e : string) (ts : list UHFTagInfo) : list UHFTagInfo :=
  filter (fun t => epc t = e) ts.

(* ===================================================================== *)
(** ** Facts about the primitives                                         *)
(* ===================================================================== *)

Section Primitives.

Lemma byteVal_range (b : byte) : 0 <= byteVal b < 256.
Proof. destruct b; vm_compute; split; congruence. Qed.

Lemma byteVal_toUint8 (n : Z) : byteVal (toUint8 n) = n mod 256.
Proof.
  unfold toUint8, byteVal.
  assert (Hr : 0 <= n mod 256 < 256) by (apply Z.mod_pos_bound; lia).
  destruct (Byte.of_N (Z.to_N (n mod 256))) as [b|] eqn:E.
  - apply Byte.to_of_N in E. simpl. rewrite E. lia.
  - apply Byte.of_N_None_iff in E. lia.
Qed.

Lemma fold_checksum (data : Uint8Array) (acc : Z) :
  fold_left (fun sum b => sum + byteVal b) data acc = acc + byteSum data.
Proof.
  revert acc. induction data as [|b data IH]; intros acc; simpl.
  - lia.
  - rewrite IH. lia.
Qed.

(** [calculateChecksum] is the sum of the bytes modulo 256. *)
Lemma calculateChecksum_mod (data : Uint8Array) :
  calculateChecksum data = byteSum data mod 256.
Proof.
  unfold calculateChecksum. rewrite fold_checksum.
  change 0xFF with (Z.ones 8). rewrite Z.land_ones by lia. reflexivity.
Qed.

Lemma string_length_append (s t : string) :
  String.length (s +:+ t) = (String.length s + String.length t)%nat.
Proof.
  induction s as [|c s IH]; [reflexivity|].
  change (String c s +:+ t) with (String c (s +:+ t)).
  simpl. now rewrite IH.
Qed.

Lemma string_append_empty (s : string) : s +:+ EmptyString = s.
Proof.
  induction s as [|c s IH]; [reflexivity|].
  change (String c s +:+ EmptyString) with (String c (s +:+ EmptyString)).
  now rewrite IH.
Qed.

Lemma join_cons (s : string) (parts : list string) :
  join (s :: parts) = s +:+ join parts.
Proof.
  unfold join. destruct parts as [|t parts]; cbn.
  - symmetry. apply string_append_empty.
  - reflexivity.
Qed.

(** Joining pieces of a common width [n] gives [n] characters per piece. *)
Lemma join_length (n : nat) (parts : list string) :
  Forall (fun s => String.length s = n) parts ->
  String.length (join parts) = (n * length parts)%nat.
Proof.
  induction 1 as [|s parts Hs _ IH].
  - simpl. lia.
  - rewrite join_cons, string_length_append, Hs, IH. simpl. lia.
Qed.

Lemma pcHex_length (b : byte) : String.length (pcHex b) = 2%nat.
Proof. destruct b; reflexivity. Qed.

Lemma epcHex_length (b : byte) : String.length (epcHex b) = 2%nat.
Proof. destruct b; reflexivity. Qed.

Lemma slice_length (data : Uint8Array) (start end_ : nat) :
  length (slice data start end_)
  = ((end_ - start) `min` (length data - start))%nat.
Proof. unfold slice. now rewrite length_take, length_drop. Qed.

End Primitives.

(* ===================================================================== *)
(** ** Commands: frames written and state kept                            *)
(* ===================================================================== *)

(** Unfolds a method down to the pair it returns. *)
Ltac method :=
  unfold startInventory, stopInventory, getPower, setPower, disconnect,
    handleDisconnect, cleanup, updateConnectionStatus, writeValue,
    onTagRead, onConnectionStatusChange, exec, result, ret, this, assign,
    perform, mbind, mret, M_bind, M_ret; simpl.

Section Commands.

Lemma setPowerCommand_bytes (power : Z) :
  setPowerCommand power
  = [xa0; x05; x01; xb6; toUint8 power;
     toUint8 ((0xA0 + 0x05 + 0x01 + 0xB6 + power mod 256) mod 256)].
Proof.
  unfold setPowerCommand. cbn [slice take drop Nat.sub].
  rewrite calculateChecksum_mod. cbn [byteSum foldr].
  rewrite byteVal_toUint8.
  change (byteVal xa0) with 0xA0. change (byteVal x05) with 0x05.
  change (byteVal x01) with 0x01. change (byteVal xb6) with 0xB6.
  replace (160 + (5 + (1 + (182 + (power mod 256 + 0)))))
    with (160 + 5 + 1 + 182 + power mod 256) by lia.
  reflexivity.
Qed.

(** The scenario of the specification: [setPower(20)] sends
    [A0 05 01 B6 14 70]. *)
Example setPowerCommand_20 :
  setPowerCommand 20 = [xa0; x05; x01; xb6; x14; x70].
Proof. reflexivity. Qed.

Lemma cleanup_svc (w : World) :
  exec cleanup w
  = {| svc := {| device := None; server := None; characteristic := None;
                 tagReadCallback := tagReadCallback (svc w);
                 connectionStatusCallback := connectionStatusCallback (svc w);
                 isInventoryRunning := false |};
       trace := trace w |}.
Proof. reflexivity. Qed.

Lemma handleDisconnect_svc (w : World) :
  svc (exec handleDisconnect w) = svc (exec cleanup w).
Proof.
  destruct w as [[d g c tcb scb r] tr]. method. destruct scb; reflexivity.
Qed.

Lemma disconnect_svc (gattConnected : bool) (w : World) :
  svc (exec (disconnect gattConnected) w) = svc (exec cleanup w).
Proof.
  destruct w as [[d g c tcb scb r] tr]. method.
  destruct d as [[i []]|], gattConnected, scb; reflexivity.
Qed.

(** The service keeps no status field: the guard of every command is the
    characteristic handle.  When [startNotifications] rejects, [connect]
    reports [error] with the handle already stored, and a later
    [startInventory] does write. *)
Remark channel_kept_when_subscription_rejected :
  let w := run [OnConnectionStatusChange 1%nat;
                Connect (StartNotificationsRejects
                           {| deviceId := 6; hasGatt := true |}
                           {| serverId := 6 |} {| characteristicId := 6 |})]
               initialWorld in
  statusesSent (trace w) = [connecting; error] /\
  characteristic (svc w) = Some {| characteristicId := 6 |} /\
  writes (trace (exec (startInventory true) w)) = [startInventoryCommand].
Proof. repeat split. Qed.

End Commands.

(** C4.  With a channel in place and an integral level [0 <= p <= 30],
    [setPower] hands the transport exactly the six bytes
    [A0 05 01 B6 p c], where [c] is the sum of the first five modulo 256,
    and nothing else; for [p < 0] or [p > 30] it answers [false] at once,
    in any state, leaving the world as it was: no frame, no write. *)
Theorem setPower_frame_or_refusal (p : Z) (writeResolves : bool) (w : World) :
  (0 <= p <= 30 -> characteristic (svc w) <> None ->
     exists bp bc : byte,
       byteVal bp = p /\
       byteVal bc
       = (byteVal xa0 + byteVal x05 + byteVal x01 + byteVal xb6 + byteVal bp)
           mod 256 /\
       setPower p writeResolves w
       = (writeResolves,
          {| svc := svc w;
             trace := trace w ++ [WriteValue [xa0; x05; x01; xb6; bp; bc]] |}))
  /\
  (p < 0 \/ 30 < p ->
     setPower p writeResolves w = (false, w) /\
     writes (trace (exec (setPower p writeResolves) w)) = writes (trace w)).
Proof.
  split.
  - intros Hp Hc.
    exists (toUint8 p),
           (toUint8 ((0xA0 + 0x05 + 0x01 + 0xB6 + p mod 256) mod 256)).
    rewrite !byteVal_toUint8.
    assert (Hm : p mod 256 = p) by (apply Z.mod_small; lia).
    rewrite Z.mod_mod by lia. rewrite Hm.
    repeat split.
    method. destruct (characteristic (svc w)) as [c|]; [|congruence].
    assert (Hr : (p <? 0) || (30 <? p) = false)
      by (apply orb_false_intro; [apply Z.ltb_ge | apply Z.ltb_ge]; lia).
    rewrite Hr. simpl. rewrite setPowerCommand_bytes, Hm. reflexivity.
  - intros Hp.
    assert (Hr : (p <? 0) || (30 <? p) = true).
    { apply orb_true_iff. destruct Hp; [left | right]; apply Z.ltb_lt; lia. }
    assert (E : setPower p writeResolves w = (false, w)).
    { method. destruct w as [s tr]. simpl.
      destruct (characteristic s); [rewrite Hr|]; reflexivity. }
    split; [exact E|]. unfold exec. now rewrite E.
Qed.

(** C5.  With a channel in place, [startInventory] hands the transport
    exactly [A0 04 01 27 CC] and [stopInventory] exactly [A0 04 01 28 CD],
    and nothing else.  When the write resolves the method answers [true]
    and the running flag is [true] after a start, [false] after a stop;
    when the write rejects the method answers [false] and the running flag
    has the value it had.  No other field changes in either case. *)
Theorem inventory_commands_written (writeResolves : bool) (w : World) :
  characteristic (svc w) <> None ->
  let started := exec (startInventory writeResolves) w in
  let stopped := exec (stopInventory writeResolves) w in
  (result (startInventory writeResolves) w = writeResolves /\
   trace started = trace w ++ [WriteValue [xa0; x04; x01; x27; xcc]] /\
   isInventoryRunning (svc started)
   = (if writeResolves then true else isInventoryRunning (svc w)) /\
   device (svc started) = device (svc w) /\
   server (svc started) = server (svc w) /\
   characteristic (svc started) = characteristic (svc w) /\
   tagReadCallback (svc started) = tagReadCallback (svc w) /\
   connectionStatusCallback (svc started) = connectionStatusCallback (svc w))
  /\
  (result (stopInventory writeResolves) w = writeResolves /\
   trace stopped = trace w ++ [WriteValue [xa0; x04; x01; x28; xcd]] /\
   isInventoryRunning (svc stopped)
   = (if writeResolves then false else isInventoryRunning (svc w)) /\
   device (svc stopped) = device (svc w) /\
   server (svc stopped) = server (svc w) /\
   characteristic (svc stopped) = characteristic (svc w) /\
   tagReadCallback (svc stopped) = tagReadCallback (svc w) /\
   connectionStatusCallback (svc stopped) = connectionStatusCallback (svc w)).
Proof.
  destruct w as [[d0 g0 c0 tcb scb r0] tr]. simpl. intros Hc.
  destruct c0 as [c|]; [|congruence].
  destruct writeResolves; method; repeat split.
Qed.

Lemma inventory_commands_written_witness :
  let w := exec (startInventory true) sampleConnected in
  let started := exec (startInventory true) w in
  let stopped := exec (stopInventory true) w in
  isInventoryRunning (svc sampleConnected) = false /\
  isInventoryRunning (svc w) = true /\
  (result (startInventory true) w = true /\
   trace started = trace w ++ [WriteValue [xa0; x04; x01; x27; xcc]] /\
   isInventoryRunning (svc started) = true /\
   device (svc started) = device (svc w) /\
   server (svc started) = server (svc w) /\
   characteristic (svc started) = characteristic (svc w) /\
   tagReadCallback (svc started) = tagReadCallback (svc w) /\
   connectionStatusCallback (svc started) = connectionStatusCallback (svc w))
  /\
  (result (stopInventory true) w = true /\
   trace stopped = trace w ++ [WriteValue [xa0; x04; x01; x28; xcd]] /\
   isInventoryRunning (svc stopped) = false /\
   device (svc stopped) = device (svc w) /\
   server (svc stopped) = server (svc w) /\
   characteristic (svc stopped) = characteristic (svc w) /\
   tagReadCallback (svc stopped) = tagReadCallback (svc w) /\
   connectionStatusCallback (svc stopped) = connectionStatusCallback (svc w)).
Proof.
  split; [reflexivity|]. split; [reflexivity|].
  apply (inventory_commands_written true (exec (startInventory true) sampleConnected)).
  vm_compute. congruence.
Defined.

(** C6, as the code has it.  The service keeps no connection status; what
    [startInventory] tests is the characteristic handle.  When the service
    holds no characteristic, [startInventory] answers [false] at once and
    the world is untouched: nothing is handed to the transport and the
    running flag keeps its value. *)
Theorem startInventory_without_channel (writeResolves : bool) (w : World) :
  characteristic (svc w) = None ->
  startInventory writeResolves w = (false, w) /\
  writes (trace (exec (startInventory writeResolves) w)) = writes (trace w) /\
  isInventoryRunning (svc (exec (startInventory writeResolves) w))
  = isInventoryRunning (svc w).
Proof.
  intros Hc.
  assert (E : startInventory writeResolves w = (false, w)).
  { method. rewrite Hc. destruct w; reflexivity. }
  unfold exec. rewrite E. auto.
Qed.

Lemma startInventory_without_channel_witness :
  startInventory true initialWorld = (false, initialWorld) /\
  writes (trace (exec (startInventory true) initialWorld))
  = writes (trace initialWorld) /\
  isInventoryRunning (svc (exec (startInventory true) initialWorld))
  = isInventoryRunning (svc initialWorld).
Proof.
  apply (startInventory_without_channel true initialWorld). reflexivity.
Defined.

(** C6, as stated, fails: after a [connect] whose [startNotifications]
    rejected, the last status reported is [error], not [connected], yet a
    characteristic is stored; there [startInventory] hands the start frame
    to the transport, answers [true] and sets the running flag. *)
Lemma startInventory_writes_after_error_status :
  reachable
    (run [OnConnectionStatusChange 1%nat;
          Connect (StartNotificationsRejects
                     {| deviceId := 6; hasGatt := true |}
                     {| serverId := 6 |} {| characteristicId := 6 |})]
         initialWorld) /\
  last (statusesSent (trace
    (run [OnConnectionStatusChange 1%nat;
          Connect (StartNotificationsRejects
                     {| deviceId := 6; hasGatt := true |}
                     {| serverId := 6 |} {| characteristicId := 6 |})]
         initialWorld)))
  = Some error /\
  error <> connected /\
  isInventoryRunning (svc
    (run [OnConnectionStatusChange 1%nat;
          Connect (StartNotificationsRejects
                     {| deviceId := 6; hasGatt := true |}
                     {| serverId := 6 |} {| characteristicId := 6 |})]
         initialWorld))
  = false /\
  result (startInventory true)
    (run [OnConnectionStatusChange 1%nat;
          Connect (StartNotificationsRejects
                     {| deviceId := 6; hasGatt := true |}
                     {| serverId := 6 |} {| characteristicId := 6 |})]
         initialWorld)
  = true /\
  writes (trace (exec (startInventory true)
    (run [OnConnectionStatusChange 1%nat;
          Connect (StartNotificationsRejects
                     {| deviceId := 6; hasGatt := true |}
                     {| serverId := 6 |} {| characteristicId := 6 |})]
         initialWorld)))
  = [[xa0; x04; x01; x27; xcc]] /\
  isInventoryRunning (svc (exec (startInventory true)
    (run [OnConnectionStatusChange 1%nat;
          Connect (StartNotificationsRejects
                     {| deviceId := 6; hasGatt := true |}
                     {| serverId := 6 |} {| characteristicId := 6 |})]
         initialWorld)))
  = true.
Proof.
  split.
  - repeat apply reachable_step. apply reachable_initial.
  - repeat split. discriminate.
Qed.

Lemma setPower_frame_or_refusal_witness :
  (exists bp bc : byte,
     byteVal bp = 20 /\
     byteVal bc
     = (byteVal xa0 + byteVal x05 + byteVal x01 + byteVal xb6 + byteVal bp)
         mod 256 /\
     setPower 20 true sampleConnected
     = (true,
        {| svc := svc sampleConnected;
           trace := trace sampleConnected
                    ++ [WriteValue [xa0; x05; x01; xb6; bp; bc]] |}))
  /\
  setPower 31 true sampleConnected = (false, sampleConnected).
Proof.
  split.
  - apply (proj1 (setPower_frame_or_refusal 20 true sampleConnected)).
    + lia.
    + vm_compute. congruence.
  - apply (proj2 (setPower_frame_or_refusal 31 true sampleConnected)). lia.
Defined.

(* ===================================================================== *)
(** ** Disconnection                                                      *)
(* ===================================================================== *)

(** C7.  When the stack reports a disconnection while the running flag is
    set, [handleDisconnect] alone clears the flag and the three handles,
    tells the registered status callback [disconnected], and hands nothing
    to the transport (no stop command is written).  The fields it leaves
    are those [cleanup] leaves, which are also those an explicit
    [disconnect] leaves. *)
Theorem handleDisconnect_resets_session (w : World) :
  isInventoryRunning (svc w) = true ->
  let w' := exec handleDisconnect w in
  isInventoryRunning (svc w') = false /\
  device (svc w') = None /\
  server (svc w') = None /\
  characteristic (svc w') = None /\
  (forall cb, connectionStatusCallback (svc w) = Some cb ->
     trace w' = trace w ++ [StatusChange cb disconnected]) /\
  writes (trace w') = writes (trace w) /\
  svc w' = svc (exec cleanup w) /\
  (forall gattConnected, svc (exec (disconnect gattConnected) w) = svc w').
Proof.
  intros _ w'. subst w'.
  destruct w as [[d g c tcb scb r] tr].
  repeat split.
  - method. destruct scb; reflexivity.
  - method. destruct scb; reflexivity.
  - method. destruct scb; reflexivity.
  - method. destruct scb; reflexivity.
  - intros cb Hcb. simpl in Hcb. subst scb. reflexivity.
  - method. destruct scb; simpl; [|reflexivity].
    unfold writes. rewrite omap_app. simpl. now rewrite app_nil_r.
  - apply handleDisconnect_svc.
  - intros gc. now rewrite disconnect_svc, handleDisconnect_svc.
Qed.

Lemma handleDisconnect_resets_session_witness :
  let w := exec (startInventory true) sampleConnected in
  let w' := exec handleDisconnect w in
  isInventoryRunning (svc w) = true /\
  isInventoryRunning (svc w') = false /\
  device (svc w') = None /\
  server (svc w') = None /\
  characteristic (svc w') = None /\
  (forall cb, connectionStatusCallback (svc w) = Some cb ->
     trace w' = trace w ++ [StatusChange cb disconnected]) /\
  writes (trace w') = writes (trace w) /\
  svc w' = svc (exec cleanup w) /\
  (forall gattConnected, svc (exec (disconnect gattConnected) w) = svc w').
Proof.
  split; [reflexivity|].
  apply (handleDisconnect_resets_session (exec (startInventory true) sampleConnected)).
  reflexivity.
Defined.

(* ===================================================================== *)
(** ** The running flag implies a channel                                 *)
(* ===================================================================== *)

Section Invariant.



Lemma handleNotification_svc (now : Z) (value : option Uint8Array) (w : World) :
  svc (exec (handleNotification now value) w) = svc w.
Proof.
  unfold handleNotification. destruct value as [data|]; [|reflexivity].
  destruct (frameCommand data) as [command|]; [|reflexivity].
  destruct ((command =? 0x22) || (command =? 0x27)); [|reflexivity].
  method.
  destruct (parseTagData now data), (tagReadCallback (svc w)); reflexivity.
Qed.


End Invariant.



(* ===================================================================== *)
(** ** Inbound notifications                                              *)
(* ===================================================================== *)

Section Inbound.

(** What the opening test of [handleNotification] lets through. *)
Lemma frameCommand_Some (data : Uint8Array) (command : Z) :
  frameCommand data = Some command <->
  (5 < length data)%nat /\ index data 0 = Some 0xA0 /\ index data 3 = Some command.
Proof.
  unfold frameCommand.
  destruct (5 <? length data)%nat eqn:Hl; simpl.
  - apply Nat.ltb_lt in Hl. case_bool_decide as Hh; simpl.
    + tauto.
    + split; [congruence | tauto].
  - apply Nat.ltb_ge in Hl. split; [congruence | lia].
Qed.

(** [parseTagData] in closed form: it depends on the buffer only through
    the byte at 5 (RSSI), the bytes at 6 and 7 (PC) and the bytes from 8
    on (EPC). *)
Lemma parseTagData_unfold (now : Z) (data : Uint8Array) :
  parseTagData now data
  = match data !! 5%nat with
    | Some r =>
        Some {| epc := join (map epcHex
                   (slice data 8 (8 + default 0%nat (epcLength <$> data !! 6%nat))));
                rssi := toString10 (byteVal r); count := 1;
                tid := None; user := None;
                pc := Some (join (map pcHex (slice data 6 8)));
                ant := None; timestamp := now |}
    | None => None
    end.
Proof.
  unfold parseTagData, index.
  destruct (data !! 5%nat) as [r|]; [|reflexivity].
  cbn [fmap option_fmap option_map Nat.add Nat.sub].
  destruct (data !! 6%nat) as [p|]; reflexivity.
Qed.

Lemma parseTagData_is_Some (now : Z) (data : Uint8Array) :
  (5 < length data)%nat -> is_Some (parseTagData now data).
Proof.
  intros H. rewrite parseTagData_unfold.
  destruct (lookup_lt_is_Some_2 data 5 H) as [r ->]. eauto.
Qed.


Lemma epc_hex_length (bytes : Uint8Array) :
  String.length (join (map epcHex bytes)) = (2 * length bytes)%nat.
Proof.
  rewrite (join_length 2), length_map; [reflexivity|].
  induction bytes as [|b bytes IH]; constructor; [apply epcHex_length | exact IH].
Qed.

Lemma pc_hex_length (bytes : Uint8Array) :
  String.length (join (map pcHex bytes)) = (2 * length bytes)%nat.
Proof.
  rewrite (join_length 2), length_map; [reflexivity|].
  induction bytes as [|b bytes IH]; constructor; [apply pcHex_length | exact IH].
Qed.

(** A buffer the handler lets through with an inventory command is
    parsed and handed to the registered callback, once. *)
Lemma handleNotification_accepted (now : Z) (data : Uint8Array) (w : World)
    (command : Z) (cb : Callback) :
  frameCommand data = Some command ->
  command = 0x22 \/ command = 0x27 ->
  tagReadCallback (svc w) = Some cb ->
  exists tag,
    parseTagData now data = Some tag /\
    handleNotification now (Some data) w
    = (tt, {| svc := svc w; trace := trace w ++ [TagRead cb tag] |}).
Proof.
  intros Hf Hc Hcb.
  pose proof (proj1 (frameCommand_Some data command) Hf) as [Hl _].
  destruct (parseTagData_is_Some now data Hl) as [tag Ht].
  exists tag. split; [exact Ht|].
  unfold handleNotification. rewrite Hf.
  assert (Hb : (command =? 0x22) || (command =? 0x27) = true)
    by (destruct Hc; subst; reflexivity).
  rewrite Hb. method. rewrite Ht, Hcb. reflexivity.
Qed.

(** Any other buffer is dropped without a trace. *)
Lemma handleNotification_dropped (now : Z) (data : Uint8Array) (w : World) :
  (length data <= 5)%nat \/ index data 0 <> Some 0xA0 \/
  (index data 3 <> Some 0x22 /\ index data 3 <> Some 0x27) ->
  handleNotification now (Some data) w = (tt, w).
Proof.
  intros H. unfold handleNotification.
  destruct (frameCommand data) as [command|] eqn:Hf; [|reflexivity].
  apply frameCommand_Some in Hf. destruct Hf as (Hl & Hh & Hc).
  destruct H as [H | [H | [H1 H2]]]; [lia | tauto |].
  assert (Hb : (command =? 0x22) || (command =? 0x27) = false).
  { apply orb_false_intro; apply Z.eqb_neq; congruence. }
  now rewrite Hb.
Qed.

End Inbound.

(** C1, as the code has it.  [handleNotification] never looks at the
    trailing checksum byte.  It changes no field of the service for any
    buffer.  It drops the buffer, leaving the world as it was, when the
    buffer has at most five bytes, or does not start with [A0], or carries
    a command byte other than [22] and [27], or when no tag callback is
    registered.  Every other buffer, whatever its last byte, is parsed and
    its tag handed to the registered callback. *)
Theorem handleNotification_ignores_checksum
    (now : Z) (data : Uint8Array) (w : World) :
  let w' := exec (handleNotification now (Some data)) w in
  svc w' = svc w /\
  ((length data <= 5)%nat \/ index data 0 <> Some 0xA0 \/
   (index data 3 <> Some 0x22 /\ index data 3 <> Some 0x27) \/
   tagReadCallback (svc w) = None -> w' = w) /\
  (forall cb,
     (5 < length data)%nat -> index data 0 = Some 0xA0 ->
     index data 3 = Some 0x22 \/ index data 3 = Some 0x27 ->
     tagReadCallback (svc w) = Some cb ->
     exists tag, parseTagData now data = Some tag /\
                 trace w' = trace w ++ [TagRead cb tag]).
Proof.
  intros w'. subst w'. split; [apply handleNotification_svc|]. split.
  - intros [H | [H | [H | H]]].
    + unfold exec. now rewrite handleNotification_dropped by auto.
    + unfold exec. now rewrite handleNotification_dropped by auto.
    + unfold exec. now rewrite handleNotification_dropped by auto.
    + unfold handleNotification.
      destruct (frameCommand data) as [command|]; [|reflexivity].
      destruct ((command =? 0x22) || (command =? 0x27)); [|reflexivity].
      method. rewrite H. destruct w. now destruct (parseTagData now data).
  - intros cb Hl Hh Hc Hcb.
    destruct Hc as [Hc | Hc].
    + destruct (handleNotification_accepted now data w 0x22 cb) as (tag & Ht & E);
        [apply frameCommand_Some | | |]; auto.
      exists tag. split; [exact Ht|]. unfold exec. now rewrite E.
    + destruct (handleNotification_accepted now data w 0x27 cb) as (tag & Ht & E);
        [apply frameCommand_Some | | |]; auto.
      exists tag. split; [exact Ht|]. unfold exec. now rewrite E.
Qed.

(** C1, as stated, fails: this buffer ends in [00] while the bytes before
    it sum to [7B] modulo 256, and its tag reaches the callback. *)
Lemma corrupted_checksum_still_delivered :
  checksumMismatch [xa0; x09; x01; x22; x00; x40; x08; xab; xcd; xef; x00] /\
  tagsRead (trace (exec (handleNotification 1000
     (Some [xa0; x09; x01; x22; x00; x40; x08; xab; xcd; xef; x00]))
     sampleConnected))
  = [ {| epc := "CDEF"; rssi := "64"; count := 1; tid := None; user := None;
         pc := Some "08ab"; ant := None; timestamp := 1000 |} ].
Proof. split; [vm_compute; congruence | reflexivity]. Qed.

(* ===================================================================== *)
(** ** Tag payload                                                        *)
(* ===================================================================== *)

(** C2, as the code has it.  Take a buffer the handler lets through as an
    inventory frame (more than five bytes, header [A0], command [22] or
    [27]) that holds both PC bytes, and let [L] be the EPC length its first
    PC byte announces.  Parsing always yields a tag.  When at least [L]
    bytes follow the PC word, the EPC text has exactly [2 L] characters.
    When only [k < L] bytes follow, parsing yields a tag all the same: its
    EPC text is cut to the [2 k] characters of the bytes at hand.  In both
    cases the tag goes to the registered callback. *)
Theorem parseTagData_epc_length
    (now : Z) (data : Uint8Array) (pcByte0 pcByte1 : byte) :
  frameCommand data = Some 0x22 \/ frameCommand data = Some 0x27 ->
  data !! 6%nat = Some pcByte0 ->
  data !! 7%nat = Some pcByte1 ->
  let L := epcLength pcByte0 in
  let present := (length data - 8)%nat in
  exists tag,
    parseTagData now data = Some tag /\
    ((L <= present)%nat -> String.length (epc tag) = (2 * L)%nat) /\
    ((present < L)%nat -> String.length (epc tag) = (2 * present)%nat) /\
    (forall w cb, tagReadCallback (svc w) = Some cb ->
       exec (handleNotification now (Some data)) w
       = {| svc := svc w; trace := trace w ++ [TagRead cb tag] |}).
Proof.
  intros Hf H6 H7 L present.
  assert (Hl : (5 < length data)%nat).
  { destruct Hf as [Hf | Hf]; apply frameCommand_Some in Hf; tauto. }
  destruct (parseTagData_is_Some now data Hl) as [tag Ht].
  exists tag. split; [exact Ht|].
  assert (He : String.length (epc tag) = (2 * (L `min` present))%nat).
  { rewrite parseTagData_unfold in Ht.
    destruct (data !! 5%nat) as [r|]; [|discriminate].
    injection Ht as <-. cbn [epc]. rewrite H6.
    change (default 0%nat (epcLength <$> Some pcByte0)) with (epcLength pcByte0).
    rewrite epc_hex_length, slice_length. subst L present. lia. }
  split; [|split].
  - intros Hle. rewrite He. lia.
  - intros Hlt. rewrite He. lia.
  - intros w cb Hcb.
    destruct Hf as [Hf | Hf].
    + destruct (handleNotification_accepted now data w 0x22 cb Hf) as (tag' & Ht' & E);
        auto.
      unfold exec. rewrite E. simpl. congruence.
    + destruct (handleNotification_accepted now data w 0x27 cb Hf) as (tag' & Ht' & E);
        auto.
      unfold exec. rewrite E. simpl. congruence.
Qed.

Lemma parseTagData_epc_length_witness :
  exists tag,
    parseTagData 1000 [xa0; x09; x01; x22; x00; x40; x08; xab; xcd; xef; x7b]
    = Some tag /\
    ((2 <= 3)%nat -> String.length (epc tag) = 4%nat) /\
    ((3 < 2)%nat -> String.length (epc tag) = 6%nat) /\
    (forall w cb, tagReadCallback (svc w) = Some cb ->
       exec (handleNotification 1000
         (Some [xa0; x09; x01; x22; x00; x40; x08; xab; xcd; xef; x7b])) w
       = {| svc := svc w; trace := trace w ++ [TagRead cb tag] |}).
Proof.
  apply (parseTagData_epc_length 1000
           [xa0; x09; x01; x22; x00; x40; x08; xab; xcd; xef; x7b] x08 xab);
    [left; reflexivity | reflexivity | reflexivity].
Defined.

(** C2, as stated, fails: the first PC byte [08] announces two EPC bytes,
    one is present, and parsing yields a tag, which reaches the callback. *)
Lemma short_epc_still_parsed :
  epcLength x08 = 2%nat /\
  (length [xa0; x07; x01; x22; x00; x40; x08; xab; xcd] - 8 = 1)%nat /\
  parseTagData 1000 [xa0; x07; x01; x22; x00; x40; x08; xab; xcd]
  = Some {| epc := "CD"; rssi := "64"; count := 1; tid := None; user := None;
            pc := Some "08ab"; ant := None; timestamp := 1000 |} /\
  tagsRead (trace (exec (handleNotification 1000
     (Some [xa0; x07; x01; x22; x00; x40; x08; xab; xcd])) sampleConnected))
  = [ {| epc := "CD"; rssi := "64"; count := 1; tid := None; user := None;
         pc := Some "08ab"; ant := None; timestamp := 1000 |} ].
Proof. repeat split. Qed.

(** The PC text of a parsed buffer that holds both PC bytes: the two
    bytes in lower-case hexadecimal, four characters. *)
Lemma parseTagData_pc (now : Z) (data : Uint8Array) (tag : UHFTagInfo)
    (pcByte0 pcByte1 : byte) :
  parseTagData now data = Some tag ->
  data !! 6%nat = Some pcByte0 ->
  data !! 7%nat = Some pcByte1 ->
  pc tag = Some (pcHex pcByte0 +:+ pcHex pcByte1).
Proof.
  rewrite parseTagData_unfold. destruct (data !! 5%nat) as [r|]; [|discriminate].
  intros [= <-] H6 H7. cbn [pc]. f_equal.
  unfold slice. cbn [Nat.sub].
  assert (E : take 2 (drop 6 data) = [pcByte0; pcByte1]).
  { apply list_eq. intros [|[|i]].
    - rewrite lookup_take_lt by lia. now rewrite lookup_drop.
    - rewrite lookup_take_lt by lia. now rewrite lookup_drop.
    - rewrite lookup_take_ge by lia. reflexivity. }
  rewrite E. reflexivity.
Qed.

(** The EPC digits are the PC digits passed through [toUpperCase]: only
    the EPC branch upper-cases. *)
Lemma epcHex_upper_pcHex (b : byte) : epcHex b = toUpperCase (pcHex b).
Proof. reflexivity. Qed.

(** C8, on the code.  A parsed buffer that holds both PC bytes gets a PC
    text of exactly four hexadecimal characters, two per byte in order,
    but in lower case.  For the notification
    [A0 09 01 22 00 40 08 AB CD EF 7B] (checksum in order, PC word
    [08 AB]) the parser returns [08ab], which is not the upper-case text
    [08AB]; the EPC of the same tag is upper-case. *)
Theorem pc_word_rendered_lower_case :
  (forall now data tag pcByte0 pcByte1,
     parseTagData now data = Some tag ->
     data !! 6%nat = Some pcByte0 ->
     data !! 7%nat = Some pcByte1 ->
     exists text,
       pc tag = Some text /\
       String.length text = 4%nat /\
       text = pcHex pcByte0 +:+ pcHex pcByte1) /\
  ~ checksumMismatch [xa0; x09; x01; x22; x00; x40; x08; xab; xcd; xef; x7b] /\
  parseTagData 1000 [xa0; x09; x01; x22; x00; x40; x08; xab; xcd; xef; x7b]
  = Some {| epc := "CDEF"; rssi := "64"; count := 1; tid := None; user := None;
            pc := Some "08ab"; ant := None; timestamp := 1000 |} /\
  "08ab" <> toUpperCase "08ab" /\
  toUpperCase "08ab" = "08AB".
Proof.
  split; [|split; [|split; [|split]]].
  - intros now data tag b0 b1 Hp H6 H7.
    exists (pcHex b0 +:+ pcHex b1). split; [|split].
    + exact (parseTagData_pc now data tag b0 b1 Hp H6 H7).
    + now rewrite string_length_append, !pcHex_length.
    + reflexivity.
  - vm_compute. congruence.
  - reflexivity.
  - vm_compute. congruence.
  - reflexivity.
Qed.

(* ===================================================================== *)
(** ** Command frames against the inbound test                            *)
(* ===================================================================== *)

(** Each command frame ends in the modulo-256 sum of the bytes before it. *)
Lemma command_frames_checksum (p : Z) :
  ~ checksumMismatch startInventoryCommand /\
  ~ checksumMismatch stopInventoryCommand /\
  ~ checksumMismatch getPowerCommand /\
  ~ checksumMismatch (setPowerCommand p).
Proof.
  repeat split; try (vm_compute; congruence).
  rewrite setPowerCommand_bytes. unfold checksumMismatch.
  cbn [reverse rev_append]. rewrite !byteVal_toUint8.
  cbn [byteSum foldr].
  rewrite byteVal_toUint8.
  change (byteVal xa0) with 0xA0. change (byteVal x05) with 0x05.
  change (byteVal x01) with 0x01. change (byteVal xb6) with 0xB6.
  rewrite Z.mod_mod by lia.
  replace (160 + (5 + (1 + (182 + (p mod 256 + 0)))))
    with (160 + 5 + 1 + 182 + p mod 256) by lia.
  auto.
Qed.

(** C3, as the code has it.  The service has no decoder for its own
    frames; the only inbound reading is the test that opens
    [handleNotification], which wants more than five bytes and the header
    [A0] and then takes byte 3 as the command.  Among the command frames
    only the six-byte set-power frame, for a level [0 <= p <= 30], passes
    it: the command read back is [B6] and byte 4 is [p].  The five-byte
    start, stop and get-power frames do not pass, though each carries its
    command code at byte 3.  None of the four, fed to the handler, has any
    effect. *)
Theorem command_frames_read_back (p : Z) :
  0 <= p <= 30 ->
  (frameCommand (setPowerCommand p) = Some 0xB6 /\
   index (setPowerCommand p) 4 = Some p) /\
  (frameCommand startInventoryCommand = None /\
   index startInventoryCommand 3 = Some 0x27) /\
  (frameCommand stopInventoryCommand = None /\
   index stopInventoryCommand 3 = Some 0x28) /\
  (frameCommand getPowerCommand = None /\
   index getPowerCommand 3 = Some 0xB7) /\
  (forall now w frame,
     frame ∈ [startInventoryCommand; stopInventoryCommand; getPowerCommand;
              setPowerCommand p] ->
     handleNotification now (Some frame) w = (tt, w)).
Proof.
  intros Hp.
  assert (Hm : p mod 256 = p) by (apply Z.mod_small; lia).
  assert (H4 : index (setPowerCommand p) 4 = Some p).
  { rewrite setPowerCommand_bytes. unfold index. simpl.
    now rewrite byteVal_toUint8, Hm. }
  split; [split; [rewrite setPowerCommand_bytes; reflexivity | exact H4]|].
  do 3 (split; [split; reflexivity|]).
  intros now w frame Hin.
  - apply handleNotification_dropped.
    repeat (apply elem_of_cons in Hin; destruct Hin as [-> | Hin]).
    + left. simpl. lia.
    + left. simpl. lia.
    + left. simpl. lia.
    + right. right. rewrite setPowerCommand_bytes. split; discriminate.
    + apply elem_of_nil in Hin. contradiction.
Qed.

Lemma command_frames_read_back_witness :
  (frameCommand (setPowerCommand 20) = Some 0xB6 /\
   index (setPowerCommand 20) 4 = Some 20) /\
  (frameCommand startInventoryCommand = None /\
   index startInventoryCommand 3 = Some 0x27) /\
  (frameCommand stopInventoryCommand = None /\
   index stopInventoryCommand 3 = Some 0x28) /\
  (frameCommand getPowerCommand = None /\
   index getPowerCommand 3 = Some 0xB7) /\
  (forall now w frame,
     frame ∈ [startInventoryCommand; stopInventoryCommand; getPowerCommand;
              setPowerCommand 20] ->
     handleNotification now (Some frame) w = (tt, w)).
Proof. apply (command_frames_read_back 20). lia. Defined.

(** C3, as stated, fails: the start frame has five bytes, the inbound test
    wants more than five, so the frame is not read back at all and the
    handler does nothing with it. *)
Lemma start_frame_not_read_back :
  length startInventoryCommand = 5%nat /\
  frameCommand startInventoryCommand = None /\
  handleNotification 1000 (Some startInventoryCommand) sampleConnected
  = (tt, sampleConnected).
Proof. repeat split. Qed.

(* ===================================================================== *)
(** ** The tag list of the reader component                               *)
(* ===================================================================== *)

Section TagList.

Import RFIDReader.




End TagList.



(* ===================================================================== *)
(** ** Connection life cycle                                              *)
(* ===================================================================== *)

(** X1.  What [connect] reports and stores.  The promise resolves exactly
    when every stage of the stack resolves for a device that has a [gatt].
    The registered status callback is told [connecting] and then
    [connected] (resolved) or [error] (rejected), and nothing else reaches
    the environment: no write, no teardown.  On resolution the three
    handles are the ones the stack gave. *)
Theorem connect_reports_outcome
    (t : ConnectTransport) (w : World) (cb : Callback) :
  connectionStatusCallback (svc w) = Some cb ->
  let resolved := result (connect t) w in
  let w' := exec (connect t) w in
  (resolved = true <->
     exists d g c, t = ConnectResolves d g c /\ hasGatt d = true) /\
  trace w'
  = trace w ++ [StatusChange cb connecting;
                StatusChange cb (if resolved then connected else error)] /\
  (forall d g c, t = ConnectResolves d g c -> hasGatt d = true ->
     svc w' = set_characteristic (Some c)
                (set_server (Some g) (set_device (Some d) (svc w)))) /\
  (forall d g c, t = ConnectResolves d g c -> hasGatt d = true ->
     device (svc w') = Some d /\
     server (svc w') = Some g /\
     characteristic (svc w') = Some c /\
     isInventoryRunning (svc w') = isInventoryRunning (svc w) /\
     tagReadCallback (svc w') = tagReadCallback (svc w) /\
     connectionStatusCallback (svc w') = connectionStatusCallback (svc w)).
Proof.
  destruct w as [[d0 g0 c0 tcb scb r0] tr]. simpl. intros ->.
  unfold connect, withDevice, connectFails. method.
  destruct t as [|[i []]|[i []] g|[i []] g|[i []] g c|[i []] g c]; simpl;
    (split; [split; [try discriminate; eauto
                    | intros (d & g' & c' & E & Hg); try discriminate;
                      injection E as <- <- <-; try discriminate; reflexivity]
            | split; [rewrite <- ?app_assoc; reflexivity
                     | split;
                       [ intros d g' c' E Hg; try discriminate;
                         injection E as <- <- <-; try discriminate; reflexivity
                       | intros d g' c' E Hg; try discriminate;
                         injection E as <- <- <-; try discriminate;
                         repeat split ]]]).
Qed.

Lemma connect_reports_outcome_witness :
  let t := ConnectResolves {| deviceId := 6; hasGatt := true |}
             {| serverId := 6 |} {| characteristicId := 6 |} in
  let w := exec (onConnectionStatusChange 1%nat) initialWorld in
  (result (connect t) w = true <->
     exists d g c, t = ConnectResolves d g c /\ hasGatt d = true) /\
  trace (exec (connect t) w)
  = trace w ++ [StatusChange 1%nat connecting;
                StatusChange 1%nat (if result (connect t) w then connected else error)] /\
  (forall d g c, t = ConnectResolves d g c -> hasGatt d = true ->
     svc (exec (connect t) w)
     = set_characteristic (Some c)
         (set_server (Some g) (set_device (Some d) (svc w)))) /\
  (forall d g c, t = ConnectResolves d g c -> hasGatt d = true ->
     device (svc (exec (connect t) w)) = Some d /\
     server (svc (exec (connect t) w)) = Some g /\
     characteristic (svc (exec (connect t) w)) = Some c /\
     isInventoryRunning (svc (exec (connect t) w)) = isInventoryRunning (svc w) /\
     tagReadCallback (svc (exec (connect t) w)) = tagReadCallback (svc w) /\
     connectionStatusCallback (svc (exec (connect t) w))
     = connectionStatusCallback (svc w)).
Proof.
  apply (connect_reports_outcome
           (ConnectResolves {| deviceId := 6; hasGatt := true |}
              {| serverId := 6 |} {| characteristicId := 6 |})
           (exec (onConnectionStatusChange 1%nat) initialWorld) 1%nat).
  reflexivity.
Defined.

(** X2.  [connect] never cleans up.  Whatever the stack answers, a handle
    stored before the call is still stored after it (replaced at most), the
    running flag and both callbacks are as before, and nothing is handed
    to the transport. *)
Theorem connect_never_clears (t : ConnectTransport) (w : World) :
  let w' := exec (connect t) w in
  (device (svc w) <> None -> device (svc w') <> None) /\
  (server (svc w) <> None -> server (svc w') <> None) /\
  (characteristic (svc w) <> None -> characteristic (svc w') <> None) /\
  isInventoryRunning (svc w') = isInventoryRunning (svc w) /\
  tagReadCallback (svc w') = tagReadCallback (svc w) /\
  connectionStatusCallback (svc w') = connectionStatusCallback (svc w) /\
  writes (trace w') = writes (trace w).
Proof.
  destruct w as [[d0 g0 c0 tcb scb r0] tr]. simpl.
  unfold connect, withDevice, connectFails. method.
  destruct t as [|[i []]|[i []] g|[i []] g|[i []] g c|[i []] g c];
    destruct scb; simpl;
    repeat split; try congruence;
    unfold writes; rewrite ?omap_app; simpl; rewrite ?app_nil_r; reflexivity.
Qed.

(** X3.  [disconnect], from any state: the three handles are emptied and
    the running flag cleared, both callbacks stay registered;
    [gatt.disconnect()] is requested exactly when a device with a [gatt]
    is stored and the stack reports it connected; the status callback, if
    any, is then told [disconnected]; nothing is written. *)
Theorem disconnect_effect (gattConnected : bool) (w : World) :
  let w' := exec (disconnect gattConnected) w in
  svc w' = {| device := None; server := None; characteristic := None;
              tagReadCallback := tagReadCallback (svc w);
              connectionStatusCallback := connectionStatusCallback (svc w);
              isInventoryRunning := false |} /\
  trace w'
  = trace w
    ++ (match device (svc w) with
        | Some d => if hasGatt d && gattConnected then [GattDisconnect] else []
        | None => []
        end)
    ++ (match connectionStatusCallback (svc w) with
        | Some cb => [StatusChange cb disconnected]
        | None => []
        end) /\
  writes (trace w') = writes (trace w).
Proof.
  destruct w as [[d0 g0 c0 tcb scb r0] tr]. method.
  destruct d0 as [[i []]|], gattConnected, scb; simpl;
    repeat split; rewrite <- ?app_assoc, ?app_nil_r; try reflexivity;
    unfold writes; rewrite ?omap_app; simpl; rewrite ?app_nil_r; reflexivity.
Qed.

(** X4.  A second [disconnect] changes no field and requests no teardown,
    but it is not silent: the status callback is told [disconnected] once
    more. *)
Theorem disconnect_twice (g1 g2 : bool) (w : World) (cb : Callback) :
  connectionStatusCallback (svc w) = Some cb ->
  let w1 := exec (disconnect g1) w in
  let w2 := exec (disconnect g2) w1 in
  svc w2 = svc w1 /\
  trace w2 = trace w1 ++ [StatusChange cb disconnected].
Proof.
  destruct w as [[d0 g0 c0 tcb scb r0] tr]. simpl. intros ->. method.
  destruct d0 as [[i []]|], g1; simpl; split; reflexivity.
Qed.

Lemma disconnect_twice_witness :
  svc (exec (disconnect true) (exec (disconnect true) sampleConnected))
  = svc (exec (disconnect true) sampleConnected) /\
  trace (exec (disconnect true) (exec (disconnect true) sampleConnected))
  = trace (exec (disconnect true) sampleConnected)
    ++ [StatusChange 1%nat disconnected].
Proof.
  apply (disconnect_twice true true sampleConnected 1%nat). reflexivity.
Defined.

(* ===================================================================== *)
(** ** Commands without a channel, and what they return                   *)
(* ===================================================================== *)

(** X5.  Without a characteristic, [stopInventory], [getPower] and
    [setPower] do what [startInventory] does: they answer failure
    ([false], [null]) and leave the world untouched, whatever the level
    and whatever the transport would have answered. *)
Theorem commands_refused_without_channel
    (p : Z) (writeResolves : bool) (w : World) :
  characteristic (svc w) = None ->
  stopInventory writeResolves w = (false, w) /\
  getPower writeResolves w = (None, w) /\
  setPower p writeResolves w = (false, w).
Proof.
  destruct w as [[d0 g0 c0 tcb scb r0] tr]. simpl. intros ->.
  repeat split.
Qed.

Lemma commands_refused_without_channel_witness :
  stopInventory true initialWorld = (false, initialWorld) /\
  getPower true initialWorld = (None, initialWorld) /\
  setPower 20 true initialWorld = (false, initialWorld).
Proof.
  apply (commands_refused_without_channel 20 true initialWorld). reflexivity.
Defined.

(** X6.  After [disconnect], and after a disconnection reported by the
    stack, every command is refused without a write until [connect]
    stores a characteristic again. *)
Theorem commands_refused_after_disconnect
    (gattConnected : bool) (p : Z) (writeResolves : bool) (w : World) :
  let w1 := exec (disconnect gattConnected) w in
  let w2 := exec handleDisconnect w in
  (startInventory writeResolves w1 = (false, w1) /\
   stopInventory writeResolves w1 = (false, w1) /\
   getPower writeResolves w1 = (None, w1) /\
   setPower p writeResolves w1 = (false, w1)) /\
  (startInventory writeResolves w2 = (false, w2) /\
   stopInventory writeResolves w2 = (false, w2) /\
   getPower writeResolves w2 = (None, w2) /\
   setPower p writeResolves w2 = (false, w2)).
Proof.
  intros w1 w2.
  assert (Hrefused : forall w', characteristic (svc w') = None ->
            startInventory writeResolves w' = (false, w') /\
            stopInventory writeResolves w' = (false, w') /\
            getPower writeResolves w' = (None, w') /\
            setPower p writeResolves w' = (false, w')).
  { intros [[d0 g0 c0 tcb scb r0] tr] Hc. simpl in Hc. subst c0. repeat split. }
  split; apply Hrefused; subst w1 w2.
  - now rewrite disconnect_svc.
  - now rewrite handleDisconnect_svc.
Qed.

(** X7.  [getPower] answers [null] on every path: with a characteristic it
    hands the transport exactly [A0 04 01 B7 5C] and still answers [null],
    whether the write resolves or rejects.  It changes no field. *)
Theorem getPower_always_null (writeResolves : bool) (w : World) :
  result (getPower writeResolves) w = None /\
  svc (exec (getPower writeResolves) w) = svc w /\
  trace (exec (getPower writeResolves) w)
  = trace w ++ (match characteristic (svc w) with
                | Some _ => [WriteValue [xa0; x04; x01; xb7; x5c]]
                | None => []
                end).
Proof.
  destruct w as [[d0 g0 c0 tcb scb r0] tr]. method.
  destruct c0; simpl; rewrite ?app_nil_r; repeat split.
Qed.

(** X8.  For an integral level [p]: [setPower] stores nothing, no field
    of the service changes whatever the transport answers; and it answers
    [true] exactly when a characteristic is stored, [0 <= p <= 30] and the
    write resolved. *)
Theorem setPower_result (p : Z) (writeResolves : bool) (w : World) :
  svc (exec (setPower p writeResolves) w) = svc w /\
  (result (setPower p writeResolves) w = true <->
     characteristic (svc w) <> None /\ 0 <= p <= 30 /\ writeResolves = true).
Proof.
  destruct w as [[d0 g0 c0 tcb scb r0] tr]. method.
  destruct c0 as [c|]; simpl.
  - destruct ((p <? 0) || (30 <? p)) eqn:Hr; simpl.
    + split; [reflexivity|]. apply orb_true_iff in Hr.
      split; [discriminate|]. intros (_ & Hp & _).
      destruct Hr as [Hr | Hr]; apply Z.ltb_lt in Hr; lia.
    + split; [reflexivity|]. apply orb_false_iff in Hr. destruct Hr as [H0 H30].
      apply Z.ltb_ge in H0, H30.
      split; [intros ->; repeat split; try congruence; lia | tauto].
  - split; [reflexivity|]. split; [discriminate | intros [H _]; congruence].
Qed.

(* ===================================================================== *)
(** ** Checksum and frames on the wire                                    *)
(* ===================================================================== *)

Section Wire.

Lemma byteSum_app (a b : Uint8Array) :
  byteSum (a ++ b) = byteSum a + byteSum b.
Proof.
  induction a as [|x a IH]; simpl; [reflexivity | rewrite IH; lia].
Qed.

Lemma checksumMismatch_snoc (body : Uint8Array) (c : byte) :
  checksumMismatch (body ++ [c]) <-> byteVal c <> byteSum body mod 256.
Proof.
  unfold checksumMismatch. rewrite reverse_app. simpl.
  now rewrite reverse_involutive.
Qed.

Lemma isCommandFrame_checksum (frame : Uint8Array) :
  isCommandFrame frame -> ~ checksumMismatch frame.
Proof.
  intros [-> | [-> | [-> | (p & _ & ->)]]];
    destruct (command_frames_checksum 0) as (H1 & H2 & H3 & _);
    try assumption.
  apply (command_frames_checksum p).
Qed.

Lemma connect_writes (t : ConnectTransport) (w : World) :
  writes (trace (exec (connect t) w)) = writes (trace w).
Proof.
  destruct w as [[d0 g0 c0 tcb scb r0] tr].
  unfold connect, withDevice, connectFails. method.
  destruct t as [|[i []]|[i []] g|[i []] g|[i []] g c|[i []] g c];
    destruct scb; simpl; try reflexivity;
    unfold writes; rewrite ?omap_app; simpl; rewrite ?app_nil_r; reflexivity.
Qed.

Lemma disconnect_writes (gattConnected : bool) (w : World) :
  writes (trace (exec (disconnect gattConnected) w)) = writes (trace w).
Proof.
  destruct w as [[d0 g0 c0 tcb scb r0] tr]. method.
  destruct d0 as [[i []]|], gattConnected, scb; simpl; try reflexivity;
    unfold writes; rewrite ?omap_app; simpl; rewrite ?app_nil_r; reflexivity.
Qed.

(** The frames one action adds to those written so far. *)
Lemma step_writes (a : Action) (w : World) :
  exists frames,
    writes (trace (step a w)) = writes (trace w) ++ frames /\
    Forall isCommandFrame frames.
Proof.
  assert (Hnone : forall tr : list Effect,
            writes tr = writes tr ++ [] /\ Forall isCommandFrame [])
    by (intros tr; rewrite app_nil_r; split; [reflexivity | constructor]).
  assert (Hone : forall (tr : list Effect) f, isCommandFrame f ->
            writes (tr ++ [WriteValue f]) = writes tr ++ [f] /\
            Forall isCommandFrame [f]).
  { intros tr f Hf. unfold writes. rewrite omap_app. simpl.
    split; [reflexivity | constructor; [exact Hf | constructor]]. }
  destruct a as [t|gc|r|r|r|p r|cb|cb|now v|]; cbn [step].
  - exists []. rewrite app_nil_r. split; [|constructor].
    apply connect_writes.
  - exists []. rewrite app_nil_r. split; [|constructor].
    apply disconnect_writes.
  - destruct w as [[d0 g0 c0 tcb scb r0] tr]. method.
    destruct c0; [|eexists; apply Hnone].
    eexists. destruct r; apply Hone; left; reflexivity.
  - destruct w as [[d0 g0 c0 tcb scb r0] tr]. method.
    destruct c0; [|eexists; apply Hnone].
    eexists. destruct r; apply Hone; right; left; reflexivity.
  - destruct w as [[d0 g0 c0 tcb scb r0] tr]. method.
    destruct c0; [|eexists; apply Hnone].
    eexists. apply Hone. right; right; left; reflexivity.
  - destruct w as [[d0 g0 c0 tcb scb r0] tr]. method.
    destruct c0; [|eexists; apply Hnone].
    destruct ((p <? 0) || (30 <? p)) eqn:Hr; [eexists; apply Hnone|].
    apply orb_false_iff in Hr. destruct Hr as [H0 H30].
    apply Z.ltb_ge in H0, H30.
    eexists. apply Hone. right; right; right. exists p. split; [lia | reflexivity].
  - exists []. apply Hnone.
  - exists []. apply Hnone.
  - exists []. rewrite app_nil_r. split; [|constructor].
    unfold handleNotification. destruct v as [data|]; [|reflexivity].
    destruct (frameCommand data) as [command|]; [|reflexivity].
    destruct ((command =? 0x22) || (command =? 0x27)); [|reflexivity].
    destruct w as [[d0 g0 c0 tcb scb r0] tr]. method.
    destruct (parseTagData now data), tcb; simpl; try reflexivity.
    unfold writes. rewrite omap_app. simpl. now rewrite app_nil_r.
  - exists []. rewrite app_nil_r. split; [|constructor].
    destruct w as [[d0 g0 c0 tcb scb r0] tr]. method.
    destruct scb; simpl; [|reflexivity].
    unfold writes. rewrite omap_app. simpl. now rewrite app_nil_r.
Qed.

End Wire.

(** X9.  [calculateChecksum] returns the sum of the bytes modulo 256, a
    value in [0, 255], so storing it into a [Uint8Array] loses nothing;
    and a buffer extended by that byte ends in the checksum of what
    precedes it. *)
Theorem calculateChecksum_seals (data : Uint8Array) :
  calculateChecksum data = byteSum data mod 256 /\
  0 <= calculateChecksum data < 256 /\
  byteVal (toUint8 (calculateChecksum data)) = calculateChecksum data /\
  ~ checksumMismatch (data ++ [toUint8 (calculateChecksum data)]).
Proof.
  assert (Hr : 0 <= byteSum data mod 256 < 256) by (apply Z.mod_pos_bound; lia).
  rewrite calculateChecksum_mod.
  assert (Hb : byteVal (toUint8 (byteSum data mod 256)) = byteSum data mod 256).
  { rewrite byteVal_toUint8. apply Z.mod_small. exact Hr. }
  repeat split; try lia; try exact Hb.
  rewrite checksumMismatch_snoc, Hb. auto.
Qed.

(** X10.  The checksum of a buffer in two parts is the sum of the parts'
    checksums modulo 256; in particular it does not depend on the order of
    the parts. *)
Theorem calculateChecksum_app (a b : Uint8Array) :
  calculateChecksum (a ++ b)
  = (calculateChecksum a + calculateChecksum b) mod 256 /\
  calculateChecksum (a ++ b) = calculateChecksum (b ++ a).
Proof.
  rewrite !calculateChecksum_mod, !byteSum_app. split.
  - now rewrite <- Z.add_mod by lia.
  - f_equal. lia.
Qed.

(** X11.  Whatever is called and whatever the stack answers, every frame
    the service ever hands to the transport is one of its four command
    frames (start, stop, get power, or set power for a level in [0, 30]),
    and ends in the modulo-256 sum of its other bytes. *)
Theorem only_command_frames_written (w : World) :
  reachable w ->
  Forall (fun frame => isCommandFrame frame /\ ~ checksumMismatch frame)
         (writes (trace w)).
Proof.
  induction 1 as [|a w _ IH].
  - constructor.
  - destruct (step_writes a w) as (frames & -> & Hf).
    apply Forall_app. split; [exact IH|].
    eapply Forall_impl; [exact Hf|].
    intros f Hc. split; [exact Hc | now apply isCommandFrame_checksum].
Qed.

Lemma only_command_frames_written_witness :
  Forall (fun frame => isCommandFrame frame /\ ~ checksumMismatch frame)
         (writes (trace (step (SetPower 20 true)
                           (step (StartInventory true) sampleConnected)))).
Proof.
  apply (only_command_frames_written
           (step (SetPower 20 true) (step (StartInventory true) sampleConnected))).
  repeat apply reachable_step. apply reachable_initial.
Defined.

(* ===================================================================== *)
(** ** Notifications and parsed tags                                      *)
(* ===================================================================== *)

Section Parsed.

Lemma parseTagData_epc (now : Z) (data : Uint8Array) (tag : UHFTagInfo) :
  parseTagData now data = Some tag ->
  epc tag = join (map epcHex (epcBytes data)).
Proof.
  rewrite parseTagData_unfold. destruct (data !! 5%nat); [|discriminate].
  now intros [= <-].
Qed.

Lemma decodeHex_epcHex (b : byte) (rest : string) :
  decodeHex (epcHex b +:+ rest)
  = match decodeHex rest with
    | Some bytes => Some (b :: bytes)
    | None => None
    end.
Proof. destruct b; reflexivity. Qed.

Lemma decodeHex_join (bytes : Uint8Array) :
  decodeHex (join (map epcHex bytes)) = Some bytes.
Proof.
  induction bytes as [|b bytes IH]; [reflexivity|].
  cbn [map]. now rewrite join_cons, decodeHex_epcHex, IH.
Qed.

Lemma epcLength_bound (b : byte) : (epcLength b <= 62)%nat /\ Nat.Even (epcLength b).
Proof.
  unfold epcLength.
  assert (H : 0 <= Z.land (Z.shiftr (byteVal b) 3) 0x1F < 32).
  { change 0x1F with (Z.ones 5). rewrite Z.land_ones by lia.
    apply Z.mod_pos_bound. lia. }
  split; [lia|].
  exists (Z.to_nat (Z.land (Z.shiftr (byteVal b) 3) 0x1F)). lia.
Qed.

Lemma rssi_text_length (b : byte) :
  (1 <= String.length (toString10 (byteVal b)) <= 3)%nat.
Proof. destruct b; vm_compute; split; repeat constructor. Qed.

Lemma epcBytes_length (data : Uint8Array) : (length (epcBytes data) <= 62)%nat.
Proof.
  unfold epcBytes. rewrite slice_length.
  destruct (data !! 6%nat) as [b|]; simpl.
  - pose proof (proj1 (epcLength_bound b)). lia.
  - lia.
Qed.

End Parsed.

(** X12.  A notification is handled without regard to the session: two
    worlds with the same tag callback get the same effects from the same
    buffer at the same time, whether or not a characteristic is stored or
    inventory is running.  Those effects are nothing at all, or one call
    of the tag callback with the parsed tag; an event without a value has
    no effect.  No field changes. *)
Theorem notification_ignores_session
    (now : Z) (value : option Uint8Array) (w1 w2 : World) :
  tagReadCallback (svc w1) = tagReadCallback (svc w2) ->
  exists events,
    exec (handleNotification now value) w1
    = {| svc := svc w1; trace := trace w1 ++ events |} /\
    exec (handleNotification now value) w2
    = {| svc := svc w2; trace := trace w2 ++ events |} /\
    (events = [] \/
     exists cb data tag,
       value = Some data /\ parseTagData now data = Some tag /\
       events = [TagRead cb tag]) /\
    (value = None -> events = []).
Proof.
  destruct w1 as [[d1 g1 c1 tcb1 scb1 r1] tr1].
  destruct w2 as [[d2 g2 c2 tcb2 scb2 r2] tr2]. simpl. intros <-.
  assert (Hnil : exists events : list Effect,
            {| svc := mkService d1 g1 c1 tcb1 scb1 r1; trace := tr1 |}
            = {| svc := mkService d1 g1 c1 tcb1 scb1 r1; trace := tr1 ++ events |} /\
            {| svc := mkService d2 g2 c2 tcb1 scb2 r2; trace := tr2 |}
            = {| svc := mkService d2 g2 c2 tcb1 scb2 r2; trace := tr2 ++ events |} /\
            (events = [] \/
             exists cb data tag,
               value = Some data /\ parseTagData now data = Some tag /\
               events = [TagRead cb tag]) /\
            (value = None -> events = [])).
  { exists []. rewrite !app_nil_r. auto. }
  unfold handleNotification. destruct value as [data|]; [|exact Hnil].
  destruct (frameCommand data) as [command|]; [|exact Hnil].
  destruct ((command =? 0x22) || (command =? 0x27)); [|exact Hnil].
  method. destruct (parseTagData now data) as [tag|] eqn:Hp; [|exact Hnil].
  destruct tcb1 as [cb|]; [|exact Hnil].
  exists [TagRead cb tag]. repeat split; [|discriminate].
  right. exists cb, data, tag. auto.
Qed.

Lemma notification_ignores_session_witness :
  exists events,
    exec (handleNotification 1000
            (Some [xa0; x09; x01; x22; x00; x40; x08; xab; xcd; xef; x7b]))
         sampleConnected
    = {| svc := svc sampleConnected; trace := trace sampleConnected ++ events |} /\
    exec (handleNotification 1000
            (Some [xa0; x09; x01; x22; x00; x40; x08; xab; xcd; xef; x7b]))
         (exec (disconnect true) sampleConnected)
    = {| svc := svc (exec (disconnect true) sampleConnected);
         trace := trace (exec (disconnect true) sampleConnected) ++ events |} /\
    (events = [] \/
     exists cb data tag,
       Some [xa0; x09; x01; x22; x00; x40; x08; xab; xcd; xef; x7b] = Some data /\
       parseTagData 1000 data = Some tag /\
       events = [TagRead cb tag]) /\
    (Some [xa0; x09; x01; x22; x00; x40; x08; xab; xcd; xef; x7b] = None ->
     events = []).
Proof.
  apply (notification_ignores_session 1000
           (Some [xa0; x09; x01; x22; x00; x40; x08; xab; xcd; xef; x7b])
           sampleConnected (exec (disconnect true) sampleConnected)).
  reflexivity.
Defined.

(** X13.  [parseTagData] gives [null] exactly for a buffer of at most five
    bytes (no RSSI byte to read); every longer buffer yields a tag,
    whatever it holds. *)
Theorem parseTagData_null_iff_short (now : Z) (data : Uint8Array) :
  parseTagData now data = None <-> (length data <= 5)%nat.
Proof.
  rewrite parseTagData_unfold. split.
  - destruct (data !! 5%nat) eqn:E; [discriminate|].
    intros _. now apply lookup_ge_None in E.
  - intros H. now rewrite (lookup_ge_None_2 data 5 H).
Qed.

(** X14.  Shape of every parsed tag: count 1, the time of parsing, no
    [tid], [user] or [ant]; an RSSI text of one to three characters (the
    unsigned decimal of byte 5); a PC text of 0, 2 or 4 characters; an EPC
    text of even length, at most 124 characters (62 bytes). *)
Theorem parsed_tag_shape (now : Z) (data : Uint8Array) (tag : UHFTagInfo) :
  parseTagData now data = Some tag ->
  count tag = 1 /\ timestamp tag = now /\
  tid tag = None /\ user tag = None /\ ant tag = None /\
  (1 <= String.length (rssi tag) <= 3)%nat /\
  (exists text, pc tag = Some text /\
     String.length text = (2 * (2 `min` (length data - 6)))%nat) /\
  String.length (epc tag) = (2 * length (epcBytes data))%nat /\
  (String.length (epc tag) <= 124)%nat.
Proof.
  intros Hp.
  assert (He : String.length (epc tag) = (2 * length (epcBytes data))%nat).
  { rewrite (parseTagData_epc now data tag Hp). apply epc_hex_length. }
  pose proof (epcBytes_length data) as Hb.
  rewrite parseTagData_unfold in Hp.
  destruct (data !! 5%nat) as [r|]; [|discriminate].
  injection Hp as <-. cbn [count timestamp tid user ant rssi pc epc] in *.
  repeat split; try apply rssi_text_length; try exact He; try lia.
  eexists. split; [reflexivity|]. now rewrite pc_hex_length, slice_length.
Qed.

Lemma parsed_tag_shape_witness :
  let data := [xa0; x09; x01; x22; x00; x40; x08; xab; xcd; xef; x7b] in
  let tag := {| epc := "CDEF"; rssi := "64"; count := 1; tid := None;
                user := None; pc := Some "08ab"; ant := None;
                timestamp := 1000 |} in
  count tag = 1 /\ timestamp tag = 1000 /\
  tid tag = None /\ user tag = None /\ ant tag = None /\
  (1 <= String.length (rssi tag) <= 3)%nat /\
  (exists text, pc tag = Some text /\
     String.length text = (2 * (2 `min` (length data - 6)))%nat) /\
  String.length (epc tag) = (2 * length (epcBytes data))%nat /\
  (String.length (epc tag) <= 124)%nat.
Proof.
  apply (parsed_tag_shape 1000
           [xa0; x09; x01; x22; x00; x40; x08; xab; xcd; xef; x7b]).
  reflexivity.
Defined.

(** X15.  The EPC text reads back: it consists of upper-case hexadecimal
    digits only, two per byte, and decoding it returns exactly the bytes
    the parser took as the EPC. *)
Theorem epc_text_decodes (now : Z) (data : Uint8Array) (tag : UHFTagInfo) :
  parseTagData now data = Some tag ->
  decodeHex (epc tag) = Some (epcBytes data).
Proof.
  intros Hp. rewrite (parseTagData_epc now data tag Hp). apply decodeHex_join.
Qed.

Lemma epc_text_decodes_witness :
  decodeHex "CDEF"
  = Some (epcBytes [xa0; x09; x01; x22; x00; x40; x08; xab; xcd; xef; x7b]).
Proof.
  apply (epc_text_decodes 1000
           [xa0; x09; x01; x22; x00; x40; x08; xab; xcd; xef; x7b]
           {| epc := "CDEF"; rssi := "64"; count := 1; tid := None;
              user := None; pc := Some "08ab"; ant := None;
              timestamp := 1000 |}).
  reflexivity.
Defined.

(** X16.  The EPC text identifies the EPC bytes: two parsed buffers get
    the same EPC text, the key of the tag list, exactly when the byte
    ranges the parser took as their EPCs are equal. *)
Theorem epc_text_identifies_bytes
    (now1 now2 : Z) (data1 data2 : Uint8Array) (t1 t2 : UHFTagInfo) :
  parseTagData now1 data1 = Some t1 ->
  parseTagData now2 data2 = Some t2 ->
  (epc t1 = epc t2 <-> epcBytes data1 = epcBytes data2).
Proof.
  intros H1 H2.
  rewrite (parseTagData_epc now1 data1 t1 H1), (parseTagData_epc now2 data2 t2 H2).
  split.
  - intros E.
    pose proof (decodeHex_join (epcBytes data1)) as D1.
    pose proof (decodeHex_join (epcBytes data2)) as D2.
    rewrite E in D1. congruence.
  - now intros ->.
Qed.

Lemma epc_text_identifies_bytes_witness :
  "CDEF" = "CDEF" <->
  epcBytes [xa0; x09; x01; x22; x00; x40; x08; xab; xcd; xef; x7b]
  = epcBytes [xa0; x09; x01; x22; x00; x3c; x08; xab; xcd; xef; x77].
Proof.
  apply (epc_text_identifies_bytes 1000 2000
           [xa0; x09; x01; x22; x00; x40; x08; xab; xcd; xef; x7b]
           [xa0; x09; x01; x22; x00; x3c; x08; xab; xcd; xef; x77]
           {| epc := "CDEF"; rssi := "64"; count := 1; tid := None;
              user := None; pc := Some "08ab"; ant := None; timestamp := 1000 |}
           {| epc := "CDEF"; rssi := "60"; count := 1; tid := None;
              user := None; pc := Some "08ab"; ant := None; timestamp := 2000 |});
    reflexivity.
Defined.

(* ===================================================================== *)
(** ** Registrations and handles over a run                               *)
(* ===================================================================== *)

(** X17.  A registered callback stays registered: no method and no event
    clears or changes either callback, not even [disconnect] or the shared
    cleanup; only a new registration replaces it, and the last one wins. *)
Theorem registrations_persist (a : Action) (w : World) :
  tagReadCallback (svc (step a w))
  = match a with
    | OnTagRead cb => Some cb
    | _ => tagReadCallback (svc w)
    end /\
  connectionStatusCallback (svc (step a w))
  = match a with
    | OnConnectionStatusChange cb => Some cb
    | _ => connectionStatusCallback (svc w)
    end.
Proof.
  destruct a as [t|gc|r|r|r|p r|cb|cb|now v|]; cbn [step].
  - destruct w as [[d0 g0 c0 tcb scb r0] tr].
    unfold connect, withDevice, connectFails. method.
    destruct t as [|[i []]|[i []] g|[i []] g|[i []] g c|[i []] g c];
      destruct scb; split; reflexivity.
  - rewrite disconnect_svc. split; reflexivity.
  - destruct w as [[d0 g0 c0 tcb scb r0] tr]. method.
    destruct c0, r; split; reflexivity.
  - destruct w as [[d0 g0 c0 tcb scb r0] tr]. method.
    destruct c0, r; split; reflexivity.
  - destruct w as [[d0 g0 c0 tcb scb r0] tr]. method.
    destruct c0; split; reflexivity.
  - destruct w as [[d0 g0 c0 tcb scb r0] tr]. method.
    destruct c0, ((p <? 0) || (30 <? p)); split; reflexivity.
  - split; reflexivity.
  - split; reflexivity.
  - rewrite handleNotification_svc. split; reflexivity.
  - rewrite handleDisconnect_svc. split; reflexivity.
Qed.

Section Handles.


End Handles.



(* ===================================================================== *)
(** ** The tag list over many sightings                                   *)
(* ===================================================================== *)

Section Sightings.

Import RFIDReader.

Lemma deliver_snoc (ts : list UHFTagInfo) (t : UHFTagInfo)
    (m : gmap string TagWithId) :
  deliver (ts ++ [t]) m = tagReadUpdater t (deliver ts m).
Proof. unfold deliver. now rewrite fold_left_app. Qed.

Lemma tagReadUpdater_lookup_ne (t : UHFTagInfo) (m : gmap string TagWithId)
    (e : string) :
  e <> epc t -> tagReadUpdater t m !! e = m !! e.
Proof.
  intros Hne. unfold tagReadUpdater.
  destruct (m !! epc t); now rewrite lookup_insert_ne.
Qed.

Lemma tagReadUpdater_dom (t : UHFTagInfo) (m : gmap string TagWithId) :
  dom (tagReadUpdater t m) = {[epc t]} ∪ dom m.
Proof.
  unfold tagReadUpdater. destruct (m !! epc t); apply dom_insert_L.
Qed.

Lemma tagReadUpdater_keyed (t : UHFTagInfo) (m : gmap string TagWithId) :
  keyedByEpc m -> keyedByEpc (tagReadUpdater t m).
Proof.
  intros Hk k v Hv.
  destruct (decide (k = epc t)) as [-> | Hne].
  - unfold tagReadUpdater in Hv.
    destruct (m !! epc t); rewrite lookup_insert_eq in Hv;
      injection Hv as <-; auto.
  - rewrite tagReadUpdater_lookup_ne in Hv by exact Hne. now apply Hk.
Qed.

Lemma withCount_own (t : UHFTagInfo) : withCount t (count t) = t.
Proof. now destruct t. Qed.

Lemma withEpc_snoc (e : string) (ts : list UHFTagInfo) (t : UHFTagInfo) :
  withEpc e (ts ++ [t])
  = withEpc e ts ++ (if decide (epc t = e) then [t] else []).
Proof.
  unfold withEpc. rewrite filter_app. reflexivity.
Qed.

End Sightings.

(** X19.  One sighting touches one key: the updater adds or replaces the
    entry under the tag's own EPC and leaves every other entry as it was;
    it never removes an entry, so the list grows by at most one. *)
Theorem tagReadUpdater_one_key
    (t : UHFTagInfo) (m : gmap string RFIDReader.TagWithId) :
  (forall e, e <> epc t -> RFIDReader.tagReadUpdater t m !! e = m !! e) /\
  is_Some (RFIDReader.tagReadUpdater t m !! epc t) /\
  dom (RFIDReader.tagReadUpdater t m) = {[epc t]} ∪ dom m /\
  (size m <= size (RFIDReader.tagReadUpdater t m) <= S (size m))%nat.
Proof.
  split; [intros e He; now apply tagReadUpdater_lookup_ne|].
  split.
  { unfold RFIDReader.tagReadUpdater.
    destruct (m !! epc t); rewrite lookup_insert_eq; eauto. }
  split; [apply tagReadUpdater_dom|].
  unfold RFIDReader.tagReadUpdater.
  destruct (m !! epc t) as [v|] eqn:E.
  - rewrite map_size_insert_Some by eauto. lia.
  - rewrite map_size_insert_None by exact E. lia.
Qed.

(** X20.  After any run of sightings delivered into an empty list, each
    with count 1 as the parser produces them, the entry of an EPC exists
    exactly if that EPC was sighted; its count is the number of sightings
    of that EPC and its other fields are those of the last such sighting. *)
Theorem deliver_counts_sightings (ts : list UHFTagInfo) (e : string) :
  Forall (fun t => count t = 1) ts ->
  RFIDReader.deliver ts ∅ !! e
  = (fun t => {| RFIDReader.info :=
                   RFIDReader.withCount t (Z.of_nat (length (withEpc e ts)));
                 RFIDReader.id := e |})
      <$> last (withEpc e ts).
Proof.
  induction ts as [|t ts IH] using rev_ind; intros Hc.
  - reflexivity.
  - apply Forall_app in Hc. destruct Hc as [Hts Ht].
    apply Forall_inv in Ht. specialize (IH Hts).
    rewrite deliver_snoc, withEpc_snoc.
    destruct (decide (epc t = e)) as [<- | Hne].
    + rewrite last_snoc, length_app. cbn [length fmap option_fmap option_map].
      unfold RFIDReader.tagReadUpdater. rewrite IH.
      destruct (last (withEpc (epc t) ts)) as [t0|] eqn:El; cbn.
      * rewrite lookup_insert_eq. do 3 f_equal. lia.
      * rewrite lookup_insert_eq.
        assert (En : withEpc (epc t) ts = []).
        { destruct (withEpc (epc t) ts) as [|x l] using rev_ind; [reflexivity|].
          rewrite last_snoc in El. discriminate. }
        rewrite En. cbn [length Nat.add]. change (Z.of_nat 1) with 1.
        rewrite <- Ht. now rewrite withCount_own.
    + rewrite app_nil_r, tagReadUpdater_lookup_ne by congruence. exact IH.
Qed.

Lemma deliver_counts_sightings_witness :
  let t1 := {| epc := "CDEF"; rssi := "64"; count := 1; tid := None;
               user := None; pc := Some "08ab"; ant := None; timestamp := 1000 |} in
  let t2 := {| epc := "AB"; rssi := "60"; count := 1; tid := None;
               user := None; pc := Some "0800"; ant := None; timestamp := 1500 |} in
  let t3 := {| epc := "CDEF"; rssi := "58"; count := 1; tid := None;
               user := None; pc := Some "08ab"; ant := None; timestamp := 2000 |} in
  RFIDReader.deliver [t1; t2; t3] ∅ !! "CDEF"
  = (fun t => {| RFIDReader.info :=
                   RFIDReader.withCount t
                     (Z.of_nat (length (withEpc "CDEF" [t1; t2; t3])));
                 RFIDReader.id := "CDEF" |})
      <$> last (withEpc "CDEF" [t1; t2; t3]).
Proof.
  apply (deliver_counts_sightings
           [ {| epc := "CDEF"; rssi := "64"; count := 1; tid := None;
                user := None; pc := Some "08ab"; ant := None; timestamp := 1000 |};
             {| epc := "AB"; rssi := "60"; count := 1; tid := None;
                user := None; pc := Some "0800"; ant := None; timestamp := 1500 |};
             {| epc := "CDEF"; rssi := "58"; count := 1; tid := None;
                user := None; pc := Some "08ab"; ant := None; timestamp := 2000 |} ]
           "CDEF").
  repeat constructor.
Defined.

(** X21.  The tag list stays keyed by EPC: if every entry sits under its
    own EPC and carries it as [id], the same holds after any run of
    sightings, and the keys afterwards are the old keys together with the
    EPCs sighted. *)
Theorem deliver_keeps_keys
    (ts : list UHFTagInfo) (m : gmap string RFIDReader.TagWithId) :
  keyedByEpc m ->
  keyedByEpc (RFIDReader.deliver ts m) /\
  dom (RFIDReader.deliver ts m) = list_to_set (epc <$> ts) ∪ dom m.
Proof.
  intros Hk. induction ts as [|t ts [IHk IHd]] using rev_ind.
  - split; [exact Hk|]. cbn. set_solver.
  - rewrite deliver_snoc. split.
    + now apply tagReadUpdater_keyed.
    + rewrite tagReadUpdater_dom, IHd, fmap_app, list_to_set_app_L. cbn.
      set_solver.
Qed.

Lemma deliver_keeps_keys_witness :
  let t1 := {| epc := "CDEF"; rssi := "64"; count := 1; tid := None;
               user := None; pc := Some "08ab"; ant := None; timestamp := 1000 |} in
  keyedByEpc (RFIDReader.deliver [t1] ∅) /\
  dom (RFIDReader.deliver [t1] ∅) = list_to_set (epc <$> [t1]) ∪ dom (∅ : gmap string RFIDReader.TagWithId).
Proof.
  apply (deliver_keeps_keys
           [ {| epc := "CDEF"; rssi := "64"; count := 1; tid := None;
                user := None; pc := Some "08ab"; ant := None; timestamp := 1000 |} ]
           ∅).
  intros k v Hv. rewrite lookup_empty in Hv. discriminate.
Defined.

(* ===================================================================== *)
(** ** The component and the service together                             *)
(* ===================================================================== *)

(** Replays on the component the effects a service call appended. *)
Ltac replay :=
  repeat first [ rewrite drop_app_length | rewrite drop_all
               | rewrite <- app_assoc ];
  simpl.

(** Unfolds a handler of the component down to the state it leaves. *)
Ltac handler :=
  unfold Component.handle, Component.handleConnect, Component.handleDisconnect,
    Component.handleStartScan, Component.handleStopScan,
    Component.handlePowerChange, Component.clearTags, Component.notification,
    Component.gattServerDisconnected, Component.call, Component.onUi,
    connect, withDevice, connectFails;
  method; replay.

(** Reads the last status off a trace that ends in known effects. *)
Ltac last_status :=
  unfold statusesSent in *; rewrite ?omap_app; simpl; rewrite ?app_nil_r;
  rewrite ?last_app_cons; simpl.

Ltac settle :=
  repeat match goal with |- _ /\ _ => split end;
  simpl; try congruence; auto; try (last_status; congruence).

Section Together.

Import Component.

Lemma keyedByEpc_empty : keyedByEpc ∅.
Proof. intros k v Hv. rewrite lookup_empty in Hv. discriminate. Qed.

(** What every handler keeps. *)
Lemma handle_keeps (i : Input) (a : App) :
  (tagReadCallback (svc (world a)) = Some tagCallbackId /\
   connectionStatusCallback (svc (world a)) = Some statusCallbackId /\
   (connectionStatus (ui a) = connected -> characteristic (svc (world a)) <> None) /\
   (isScanning (ui a) = true -> isInventoryRunning (svc (world a)) = true) /\
   (isInventoryRunning (svc (world a)) = true -> characteristic (svc (world a)) <> None) /\
   keyedByEpc (tags (ui a)) /\
   connectionStatus (ui a)
   = default disconnected (last (statusesSent (trace (world a))))) ->
  let a' := handle i a in
  tagReadCallback (svc (world a')) = Some tagCallbackId /\
  connectionStatusCallback (svc (world a')) = Some statusCallbackId /\
  (connectionStatus (ui a') = connected -> characteristic (svc (world a')) <> None) /\
  (isScanning (ui a') = true -> isInventoryRunning (svc (world a')) = true) /\
  (isInventoryRunning (svc (world a')) = true -> characteristic (svc (world a')) <> None) /\
  keyedByEpc (tags (ui a')) /\
  connectionStatus (ui a')
  = default disconnected (last (statusesSent (trace (world a')))).
Proof.
  pose proof keyedByEpc_empty as Hempty.
  destruct a as [[st sc tg pw er] [[d0 g0 c0 tcb scb r0] tr]]. simpl.
  intros (-> & -> & Hst & Hsc & Hrc & Hk & Hm).
  destruct i as [t m r|g|r|r|p r| |now v|].
  - destruct t as [|[i []]|[i []] g|[i []] g|[i []] g c|[i []] g c]; handler;
      try solve [settle].
    destruct ((pw <? 0) || (30 <? pw)); handler; settle.
  - destruct d0 as [[i []]|], g; handler; settle.
  - destruct c0, r; handler; settle.
  - destruct c0, r; handler; settle.
  - destruct st; handler; try solve [settle].
    destruct c0; [|exfalso; now apply Hst].
    destruct ((p <? 0) || (30 <? p)); handler; settle.
  - handler; settle.
  - unfold handle, notification, call, handleNotification.
    destruct v as [data|]; [|handler; settle].
    destruct (frameCommand data) as [command|]; [|handler; settle].
    destruct ((command =? 0x22) || (command =? 0x27)); [|handler; settle].
    method. destruct (parseTagData now data) as [tag|]; handler; settle.
    now apply tagReadUpdater_keyed.
  - handler; settle.
Qed.

Lemma appReachable_keeps (a : App) :
  appReachable a ->
  tagReadCallback (svc (world a)) = Some tagCallbackId /\
  connectionStatusCallback (svc (world a)) = Some statusCallbackId /\
  (connectionStatus (ui a) = connected -> characteristic (svc (world a)) <> None) /\
  (isScanning (ui a) = true -> isInventoryRunning (svc (world a)) = true) /\
  (isInventoryRunning (svc (world a)) = true -> characteristic (svc (world a)) <> None) /\
  keyedByEpc (tags (ui a)) /\
  connectionStatus (ui a)
  = default disconnected (last (statusesSent (trace (world a)))).
Proof.
  induction 1 as [|i a _ IH].
  - repeat match goal with |- _ /\ _ => split end;
      try reflexivity; try discriminate.
  - now apply handle_keeps.
Qed.

End Together.

(** Reads the frames written off a trace that ends in known effects. *)
Ltac written :=
  unfold writes; rewrite ?omap_app; simpl; rewrite ?app_nil_r.

(** X22.  At all times after mounting, whatever the user clicks and the
    stack does: when the component shows [connected] the service holds a
    characteristic; when it shows scanning the service's running flag is
    set, and a characteristic is stored; and the tag list is keyed by EPC. *)
Theorem component_agrees_with_service (a : Component.App) :
  Component.appReachable a ->
  (Component.connectionStatus (Component.ui a) = connected ->
     characteristic (svc (Component.world a)) <> None) /\
  (Component.isScanning (Component.ui a) = true ->
     isInventoryRunning (svc (Component.world a)) = true /\
     characteristic (svc (Component.world a)) <> None) /\
  keyedByEpc (Component.tags (Component.ui a)).
Proof.
  intros H. destruct (appReachable_keeps a H) as (_ & _ & Hst & Hsc & Hrc & Hk & _).
  split; [exact Hst|]. split; [|exact Hk].
  intros Hs. split; auto.
Qed.

Lemma component_agrees_with_service_witness :
  let a := Component.handle (Component.ClickStartScan true)
             (Component.handle
                (Component.ClickConnect
                   (ConnectResolves {| deviceId := 6; hasGatt := true |}
                      {| serverId := 6 |} {| characteristicId := 6 |})
                   None true)
                Component.initialApp) in
  Component.isScanning (Component.ui a) = true /\
  (Component.connectionStatus (Component.ui a) = connected ->
     characteristic (svc (Component.world a)) <> None) /\
  (Component.isScanning (Component.ui a) = true ->
     isInventoryRunning (svc (Component.world a)) = true /\
     characteristic (svc (Component.world a)) <> None) /\
  keyedByEpc (Component.tags (Component.ui a)).
Proof.
  split; [reflexivity|].
  apply (component_agrees_with_service
           (Component.handle (Component.ClickStartScan true)
              (Component.handle
                 (Component.ClickConnect
                    (ConnectResolves {| deviceId := 6; hasGatt := true |}
                       {| serverId := 6 |} {| characteristicId := 6 |})
                    None true)
                 Component.initialApp))).
  repeat apply Component.appReachable_handle. apply Component.appReachable_initial.
Defined.

(** X23.  The status the component shows is always the last status the
    service reported, and [disconnected] while it has reported none. *)
Theorem displayed_status_is_last_reported (a : Component.App) :
  Component.appReachable a ->
  Component.connectionStatus (Component.ui a)
  = default disconnected (last (statusesSent (trace (Component.world a)))).
Proof.
  intros H. apply (appReachable_keeps a H).
Qed.

Lemma displayed_status_is_last_reported_witness :
  let a := Component.handle
             (Component.ClickConnect
                (StartNotificationsRejects {| deviceId := 6; hasGatt := true |}
                   {| serverId := 6 |} {| characteristicId := 6 |})
                None true)
             Component.initialApp in
  Component.connectionStatus (Component.ui a)
  = default disconnected (last (statusesSent (trace (Component.world a)))).
Proof.
  apply (displayed_status_is_last_reported
           (Component.handle
              (Component.ClickConnect
                 (StartNotificationsRejects {| deviceId := 6; hasGatt := true |}
                    {| serverId := 6 |} {| characteristicId := 6 |})
                 None true)
              Component.initialApp)).
  repeat apply Component.appReachable_handle. apply Component.appReachable_initial.
Defined.

(** X24.  The stop handler turns the scanning indicator off whatever
    [stopInventory] answers.  The service's running flag is cleared only
    when a characteristic is stored and the write resolved; otherwise it
    keeps its value, so after a rejected stop the component shows not
    scanning while the service still counts as running. *)
Theorem handleStopScan_always_clears (writeResolves : bool) (a : Component.App) :
  let a' := Component.handleStopScan writeResolves a in
  Component.ui a' = Component.setIsScanning false (Component.ui a) /\
  isInventoryRunning (svc (Component.world a'))
  = match characteristic (svc (Component.world a)) with
    | Some _ => if writeResolves then false
                else isInventoryRunning (svc (Component.world a))
    | None => isInventoryRunning (svc (Component.world a))
    end /\
  Component.isScanning (Component.ui a') = false /\
  Component.connectionStatus (Component.ui a')
  = Component.connectionStatus (Component.ui a) /\
  Component.tags (Component.ui a') = Component.tags (Component.ui a) /\
  Component.power (Component.ui a') = Component.power (Component.ui a) /\
  Component.errorText (Component.ui a') = Component.errorText (Component.ui a).
Proof.
  destruct a as [[st sc tg pw er] [[d0 g0 c0 tcb scb r0] tr]].
  destruct c0, writeResolves; handler; repeat split.
Qed.

(** X25.  The start handler.  When a characteristic is stored and the
    write resolves, the indicator goes on, the tag list is emptied and the
    error text cleared.  Otherwise the error text becomes
    ['Failed to start scanning'] and indicator, tag list and running flag
    stay as they were.  The start frame is handed to the transport exactly
    when a characteristic is stored. *)
Theorem handleStartScan_outcome (writeResolves : bool) (a : Component.App) :
  let a' := Component.handleStartScan writeResolves a in
  (characteristic (svc (Component.world a)) <> None -> writeResolves = true ->
     Component.ui a'
     = Component.setTags ∅
         (Component.setIsScanning true
            (Component.setError EmptyString (Component.ui a))) /\
     isInventoryRunning (svc (Component.world a')) = true /\
     Component.isScanning (Component.ui a') = true /\
     Component.tags (Component.ui a') = ∅ /\
     Component.errorText (Component.ui a') = EmptyString /\
     Component.connectionStatus (Component.ui a')
     = Component.connectionStatus (Component.ui a) /\
     Component.power (Component.ui a') = Component.power (Component.ui a)) /\
  (characteristic (svc (Component.world a)) = None \/ writeResolves = false ->
     Component.ui a'
     = Component.setError "Failed to start scanning" (Component.ui a) /\
     isInventoryRunning (svc (Component.world a'))
     = isInventoryRunning (svc (Component.world a)) /\
     Component.errorText (Component.ui a') = "Failed to start scanning" /\
     Component.isScanning (Component.ui a') = Component.isScanning (Component.ui a) /\
     Component.tags (Component.ui a') = Component.tags (Component.ui a) /\
     Component.connectionStatus (Component.ui a')
     = Component.connectionStatus (Component.ui a) /\
     Component.power (Component.ui a') = Component.power (Component.ui a)) /\
  writes (trace (Component.world a'))
  = writes (trace (Component.world a))
    ++ match characteristic (svc (Component.world a)) with
       | Some _ => [startInventoryCommand]
       | None => []
       end.
Proof.
  destruct a as [[st sc tg pw er] [[d0 g0 c0 tcb scb r0] tr]].
  destruct c0, writeResolves; handler;
    (split; [|split]); try (intros; repeat split; reflexivity);
    try (intros [? | ?]; congruence); try congruence;
    written; reflexivity.
Qed.

(** X26.  The connect handler, with the component's status callback
    registered.  When [connect] resolves the component shows [connected]
    with no error text, and the power level it holds is sent at once,
    provided it lies in [0, 30].  When [connect] rejects the component
    shows [error], is not scanning, and the error text is the message of
    what was thrown (['Failed to connect'] when that is no [Error]);
    nothing is written.  The power level and the tag list are kept. *)
Theorem handleConnect_outcome
    (t : ConnectTransport) (stackMessage : option string)
    (writeResolves : bool) (a : Component.App) :
  connectionStatusCallback (svc (Component.world a))
  = Some Component.statusCallbackId ->
  let a' := Component.handleConnect t stackMessage writeResolves a in
  let level := Component.power (Component.ui a) in
  (result (connect t) (Component.world a) = true ->
     Component.connectionStatus (Component.ui a') = connected /\
     Component.errorText (Component.ui a') = EmptyString /\
     writes (trace (Component.world a'))
     = writes (trace (Component.world a))
       ++ (if (level <? 0) || (30 <? level) then []
           else [setPowerCommand level])) /\
  (result (connect t) (Component.world a) = false ->
     Component.connectionStatus (Component.ui a') = error /\
     Component.isScanning (Component.ui a') = false /\
     Component.errorText (Component.ui a')
     = default "Failed to connect" (Component.thrownMessage t stackMessage) /\
     writes (trace (Component.world a')) = writes (trace (Component.world a))) /\
  Component.power (Component.ui a') = level /\
  Component.tags (Component.ui a') = Component.tags (Component.ui a).
Proof.
  destruct a as [[st sc tg pw er] [[d0 g0 c0 tcb scb r0] tr]]. simpl.
  intros ->.
  destruct t as [|[i []]|[i []] g|[i []] g|[i []] g c|[i []] g c]; handler;
    try (split; [discriminate|]; split;
         [intros _; repeat split; written; reflexivity | split; reflexivity]).
  destruct ((pw <? 0) || (30 <? pw)); handler;
    (split; [intros _; repeat split; written; reflexivity|]);
    (split; [discriminate | split; reflexivity]).
Qed.

Lemma handleConnect_outcome_witness :
  let t := ConnectResolves {| deviceId := 6; hasGatt := true |}
             {| serverId := 6 |} {| characteristicId := 6 |} in
  let a := Component.initialApp in
  let a' := Component.handleConnect t None true a in
  (result (connect t) (Component.world a) = true ->
     Component.connectionStatus (Component.ui a') = connected /\
     Component.errorText (Component.ui a') = EmptyString /\
     writes (trace (Component.world a'))
     = writes (trace (Component.world a))
       ++ (if (20 <? 0) || (30 <? 20) then [] else [setPowerCommand 20])) /\
  (result (connect t) (Component.world a) = false ->
     Component.connectionStatus (Component.ui a') = error /\
     Component.isScanning (Component.ui a') = false /\
     Component.errorText (Component.ui a')
     = default "Failed to connect" (Component.thrownMessage t None) /\
     writes (trace (Component.world a')) = writes (trace (Component.world a))) /\
  Component.power (Component.ui a') = 20 /\
  Component.tags (Component.ui a') = Component.tags (Component.ui a).
Proof.
  apply (handleConnect_outcome
           (ConnectResolves {| deviceId := 6; hasGatt := true |}
              {| serverId := 6 |} {| characteristicId := 6 |})
           None true Component.initialApp).
  reflexivity.
Defined.

(** X27.  The disconnect handler, with the component's status callback
    registered: afterwards the component shows [disconnected], is not
    scanning and its tag list is empty, whatever it showed before; power
    level and error text are kept; the service holds no handle and its
    running flag is cleared. *)
Theorem component_disconnect_resets (gattConnected : bool) (a : Component.App) :
  connectionStatusCallback (svc (Component.world a))
  = Some Component.statusCallbackId ->
  let a' := Component.handleDisconnect gattConnected a in
  Component.ui a'
  = {| Component.connectionStatus := disconnected;
       Component.isScanning := false;
       Component.tags := ∅;
       Component.power := Component.power (Component.ui a);
       Component.errorText := Component.errorText (Component.ui a) |} /\
  device (svc (Component.world a')) = None /\
  server (svc (Component.world a')) = None /\
  characteristic (svc (Component.world a')) = None /\
  isInventoryRunning (svc (Component.world a')) = false.
Proof.
  destruct a as [[st sc tg pw er] [[d0 g0 c0 tcb scb r0] tr]]. simpl.
  intros ->.
  destruct d0 as [[i []]|], gattConnected; handler; repeat split.
Qed.

Lemma component_disconnect_resets_witness :
  let a := Component.handle (Component.ClickStartScan true)
             (Component.handle
                (Component.ClickConnect
                   (ConnectResolves {| deviceId := 6; hasGatt := true |}
                      {| serverId := 6 |} {| characteristicId := 6 |})
                   None true)
                Component.initialApp) in
  let a' := Component.handleDisconnect true a in
  Component.ui a'
  = {| Component.connectionStatus := disconnected;
       Component.isScanning := false;
       Component.tags := ∅;
       Component.power := Component.power (Component.ui a);
       Component.errorText := Component.errorText (Component.ui a) |} /\
  device (svc (Component.world a')) = None /\
  server (svc (Component.world a')) = None /\
  characteristic (svc (Component.world a')) = None /\
  isInventoryRunning (svc (Component.world a')) = false.
Proof.
  apply (component_disconnect_resets true
           (Component.handle (Component.ClickStartScan true)
              (Component.handle
                 (Component.ClickConnect
                    (ConnectResolves {| deviceId := 6; hasGatt := true |}
                       {| serverId := 6 |} {| characteristicId := 6 |})
                    None true)
                 Component.initialApp))).
  reflexivity.
Defined.

(** X28.  The power handler stores the new level in the component in every
    case, also when the component does not show [connected] or the level
    is outside [0, 30], and changes nothing else in the component.  A
    set-power frame for that level is handed to the transport exactly when
    the component shows [connected], a characteristic is stored and the
    level lies in [0, 30]. *)
Theorem handlePowerChange_outcome
    (newPower : Z) (writeResolves : bool) (a : Component.App) :
  let a' := Component.handlePowerChange newPower writeResolves a in
  Component.ui a' = Component.setPowerLevel newPower (Component.ui a) /\
  svc (Component.world a') = svc (Component.world a) /\
  writes (trace (Component.world a'))
  = writes (trace (Component.world a))
    ++ match Component.connectionStatus (Component.ui a),
             characteristic (svc (Component.world a)) with
       | connected, Some _ =>
           if (newPower <? 0) || (30 <? newPower) then []
           else [setPowerCommand newPower]
       | _, _ => []
       end /\
  Component.power (Component.ui a') = newPower /\
  Component.connectionStatus (Component.ui a')
  = Component.connectionStatus (Component.ui a) /\
  Component.isScanning (Component.ui a') = Component.isScanning (Component.ui a) /\
  Component.tags (Component.ui a') = Component.tags (Component.ui a) /\
  Component.errorText (Component.ui a') = Component.errorText (Component.ui a).
Proof.
  destruct a as [[st sc tg pw er] [[d0 g0 c0 tcb scb r0] tr]].
  destruct st, c0; handler;
    try (repeat split; written; reflexivity).
  destruct ((newPower <? 0) || (30 <? newPower)); handler;
    repeat split; written; reflexivity.
Qed.

(** X29.  A sighting reaches the tag list whatever the component shows:
    with the component's tag callback registered, a notification let
    through as an inventory frame updates the list under the tag's EPC
    and changes nothing else, whether or not the component is scanning or
    shows [connected]. *)
Theorem sighting_reaches_list
    (now : Z) (data : Uint8Array) (tag : UHFTagInfo) (a : Component.App) :
  tagReadCallback (svc (Component.world a)) = Some Component.tagCallbackId ->
  frameCommand data = Some 0x22 \/ frameCommand data = Some 0x27 ->
  parseTagData now data = Some tag ->
  let a' := Component.notification now (Some data) a in
  Component.ui a'
  = Component.setTags
      (RFIDReader.tagReadUpdater tag (Component.tags (Component.ui a)))
      (Component.ui a) /\
  svc (Component.world a') = svc (Component.world a) /\
  Component.tags (Component.ui a')
  = RFIDReader.tagReadUpdater tag (Component.tags (Component.ui a)) /\
  Component.connectionStatus (Component.ui a')
  = Component.connectionStatus (Component.ui a) /\
  Component.isScanning (Component.ui a') = Component.isScanning (Component.ui a) /\
  Component.power (Component.ui a') = Component.power (Component.ui a) /\
  Component.errorText (Component.ui a') = Component.errorText (Component.ui a).
Proof.
  destruct a as [[st sc tg pw er] [[d0 g0 c0 tcb scb r0] tr]]. simpl.
  intros -> Hf Hp.
  unfold Component.notification, Component.call, handleNotification.
  assert (Hc : exists command, frameCommand data = Some command /\
                 (command =? 0x22) || (command =? 0x27) = true).
  { destruct Hf as [Hf | Hf]; eexists; split; try exact Hf; reflexivity. }
  destruct Hc as (command & -> & ->).
  method. rewrite Hp. handler. repeat split.
Qed.

Lemma sighting_reaches_list_witness :
  let data := [xa0; x09; x01; x22; x00; x40; x08; xab; xcd; xef; x7b] in
  let tag := {| epc := "CDEF"; rssi := "64"; count := 1; tid := None;
                user := None; pc := Some "08ab"; ant := None;
                timestamp := 1000 |} in
  let a := Component.initialApp in
  let a' := Component.notification 1000 (Some data) a in
  Component.isScanning (Component.ui a) = false /\
  Component.ui a'
  = Component.setTags
      (RFIDReader.tagReadUpdater tag (Component.tags (Component.ui a)))
      (Component.ui a) /\
  svc (Component.world a') = svc (Component.world a) /\
  Component.tags (Component.ui a')
  = RFIDReader.tagReadUpdater tag (Component.tags (Component.ui a)) /\
  Component.connectionStatus (Component.ui a')
  = Component.connectionStatus (Component.ui a) /\
  Component.isScanning (Component.ui a') = Component.isScanning (Component.ui a) /\
  Component.power (Component.ui a') = Component.power (Component.ui a) /\
  Component.errorText (Component.ui a') = Component.errorText (Component.ui a).
Proof.
  split; [reflexivity|].
  apply (sighting_reaches_list 1000
           [xa0; x09; x01; x22; x00; x40; x08; xab; xcd; xef; x7b]
           {| epc := "CDEF"; rssi := "64"; count := 1; tid := None;
              user := None; pc := Some "08ab"; ant := None; timestamp := 1000 |}
           Component.initialApp);
    [reflexivity | left; reflexivity | reflexivity].
Defined.

(* ===================================================================== *)
(** ** Reported status and the characteristic                             *)
(* ===================================================================== *)

Section ReportedStatus.

Lemma step_reported_status (a : Action) (w : World) :
  (statusesSent (trace w) <> [] -> connectionStatusCallback (svc w) <> None) /\
  (last (statusesSent (trace w)) = Some disconnected ->
     characteristic (svc w) = None) ->
  (statusesSent (trace (step a w)) <> [] ->
     connectionStatusCallback (svc (step a w)) <> None) /\
  (last (statusesSent (trace (step a w))) = Some disconnected ->
     characteristic (svc (step a w)) = None).
Proof.
  destruct w as [[d0 g0 c0 tcb scb r0] tr]. simpl. intros [Hcb Hd].
  assert (Hnone : scb = None -> last (statusesSent tr) = None).
  { intros ->. destruct (statusesSent tr); [reflexivity | exfalso; now apply Hcb]. }
  destruct a as [t|gc|r|r|r|p r|cb|cb|now v|]; cbn [step].
  - unfold connect, withDevice, connectFails. method.
    destruct t as [|[i []]|[i []] g|[i []] g|[i []] g c|[i []] g c];
      destruct scb as [cb|]; simpl;
      (split; [first [congruence | exact Hcb]|]);
      try (intros E; rewrite Hnone in E by reflexivity; discriminate E);
      rewrite <- ?app_assoc; last_status; intros E; discriminate E.
  - method. destruct d0 as [[i []]|], gc, scb; simpl;
      (split; [first [congruence | last_status; exact Hcb]|]);
      intros _; reflexivity.
  - method. destruct c0, r; simpl; last_status; auto.
  - method. destruct c0, r; simpl; last_status; auto.
  - method. destruct c0; simpl; last_status; auto.
  - method. destruct c0, ((p <? 0) || (30 <? p)); simpl; last_status; auto.
  - simpl. auto.
  - simpl. split; [congruence | exact Hd].
  - unfold handleNotification. destruct v as [data|]; [|simpl; auto].
    destruct (frameCommand data) as [command|]; [|simpl; auto].
    destruct ((command =? 0x22) || (command =? 0x27)); [|simpl; auto].
    method. destruct (parseTagData now data), tcb; simpl; last_status; auto.
  - method. destruct scb; simpl;
      (split; [first [congruence | last_status; exact Hcb]|]);
      intros _; reflexivity.
Qed.

(** Once the service has reported [disconnected] and nothing since, it
    holds no characteristic: in every reachable state whose last reported
    status is [disconnected], the guard of the commands fails. *)
Remark disconnected_status_no_channel (w : World) :
  reachable w ->
  last (statusesSent (trace w)) = Some disconnected ->
  characteristic (svc w) = None.
Proof.
  intros H.
  assert (Inv : (statusesSent (trace w) <> [] ->
                 connectionStatusCallback (svc w) <> None) /\
                (last (statusesSent (trace w)) = Some disconnected ->
                 characteristic (svc w) = None)).
  { induction H as [|a w _ IH].
    - split; [intros Hn; now contradiction Hn | discriminate].
    - now apply step_reported_status. }
  apply Inv.
Qed.

End ReportedStatus.
